(** * admin/aws.py: the effectful interface to boto and its in-memory fake

    A shallow embedding of [admin/aws.py].  Intents are records, performers
    are computations in a state-and-exception monad over the world the
    program runs in (the [FakeAWS] object, the boto S3 service, the local
    filesystem), and the composite performers are written against a
    dispatcher exactly as the generator-based originals are. *)

From Stdlib Require Import String Ascii List.
From stdpp Require Import gmap strings list fin_maps.

(** ** Python string operations *)

Module Py.

(** [s.startswith(p)] *)
Definition startswith (s p : string) : bool := String.prefix p s.

(** [s[n:]] *)
Fixpoint slice_from (n : nat) (s : string) : string :=
  match n, s with
  | O, _ => s
  | S _, EmptyString => EmptyString
  | S n', String _ s' => slice_from n' s'
  end.

(** [s.endswith(suffix)] *)
Definition endswith (s suffix : string) : bool :=
  (String.length suffix <=? String.length s) &&
  String.eqb (slice_from (String.length s - String.length suffix) s) suffix.

(** [s.endswith(suffixes)] for a tuple of suffixes *)
Definition endswith_any (s : string) (suffixes : list string) : bool :=
  existsb (endswith s) suffixes.

(** [s.split('/')] *)
Fixpoint split_slash (s : string) : list string :=
  match s with
  | EmptyString => [EmptyString]
  | String c s' =>
      if Ascii.eqb c "/" then EmptyString :: split_slash s'
      else match split_slash s' with
           | [] => [String c EmptyString]
           | comp :: comps => String c comp :: comps
           end
  end.

(** ['/'.join(comps)] *)
Fixpoint join_slash (comps : list string) : string :=
  match comps with
  | [] => EmptyString
  | [comp] => comp
  | comp :: comps' => comp +:+ "/" +:+ join_slash comps'
  end.

(** [s.rstrip('/')] *)
Fixpoint rstrip_slash (s : string) : string :=
  match s with
  | EmptyString => EmptyString
  | String c s' =>
      let r := rstrip_slash s' in
      if Ascii.eqb c "/" && String.eqb r "" then EmptyString else String c r
  end.

(** [s == '/' * len(s)] *)
Fixpoint all_slashes (s : string) : bool :=
  match s with
  | EmptyString => true
  | String c s' => Ascii.eqb c "/" && all_slashes s'
  end.

(** ['/' * n] *)
Fixpoint slashes (n : nat) : string :=
  match n with
  | O => EmptyString
  | S n' => String "/" (slashes n')
  end.

End Py.

(** ** [posixpath] *)

Module posixpath.

(** [os.path.join(a, b)] *)
Definition join (a b : string) : string :=
  if Py.startswith b "/" then b
  else if String.eqb a "" || Py.endswith a "/" then a +:+ b
  else a +:+ "/" +:+ b.

(** One turn of the loop of [normpath] over the components. *)
Definition normpath_step (initial_slashes : nat)
    (new_comps : list string) (comp : string) : list string :=
  if String.eqb comp "" || String.eqb comp "." then new_comps
  else if negb (String.eqb comp "..")
          || ((initial_slashes =? 0) && (length new_comps =? 0))
          || (negb (length new_comps =? 0)
              && String.eqb (List.last new_comps "") "..")
       then new_comps ++ [comp]
       else List.removelast new_comps.

(** [os.path.normpath(path)] *)
Definition normpath (path : string) : string :=
  if String.eqb path "" then "."
  else
    let initial_slashes :=
      if Py.startswith path "/" then
        if Py.startswith path "//" && negb (Py.startswith path "///")
        then 2 else 1
      else 0 in
    let comps := Py.split_slash path in
    let new_comps := fold_left (normpath_step initial_slashes) comps [] in
    let path := Py.slashes initial_slashes +:+ Py.join_slash new_comps in
    if String.eqb path "" then "." else path.

(** [os.path.abspath(path)], in the working directory [cwd] *)
Definition abspath (cwd path : string) : string :=
  normpath (if Py.startswith path "/" then path else join cwd path).

(** [os.path.dirname(p)] *)
Definition dirname (p : string) : string :=
  match List.removelast (Py.split_slash p) with
  | [] => ""
  | init =>
      let head := Py.join_slash init +:+ "/" in
      if Py.all_slashes head then head else Py.rstrip_slash head
  end.

End posixpath.

(** ** Intents *)

(** boto's [RoutingRules], in the representation the fake's docstring gives:
    key prefixes with their replacements. *)
Abbreviation RoutingRules := (list (string * string)).

(** twisted's [FilePath], identified with its absolute [path]. *)
Abbreviation FilePath := string (only parsing).

Module UpdateS3RoutingRules.
Record t := { bucket : string; routing_rules : RoutingRules }.
End UpdateS3RoutingRules.

Module UpdateS3ErrorPage.
Record t := { bucket : string; target_prefix : string }.

Definition error_key (self : t) : string :=
  target_prefix self +:+ "error_pages/404.html".
End UpdateS3ErrorPage.

Module CreateCloudFrontInvalidation.
Record t := { cname : string; paths : list string }.
End CreateCloudFrontInvalidation.

Module DeleteS3Keys.
(** [prefix] defaults to the empty string. *)
Record t := { bucket : string; prefix : string; keys : list string }.
End DeleteS3Keys.

Module CopyS3Keys.
(** [source_prefix] and [destination_prefix] default to the empty string. *)
Record t := {
  source_bucket : string;
  source_prefix : string;
  destination_bucket : string;
  destination_prefix : string;
  keys : list string;
}.
End CopyS3Keys.

Module ListS3Keys.
Record t := { bucket : string; prefix : string }.
End ListS3Keys.

Module DownloadS3KeyRecursively.
Record t := {
  source_bucket : string;
  source_prefix : string;
  target_path : FilePath;
  filter_extensions : list string;
}.
End DownloadS3KeyRecursively.

Module DownloadS3Key.
Record t := {
  source_bucket : string;
  source_key : string;
  target_path : FilePath;
}.
End DownloadS3Key.

Module ReadS3Key.
Record t := { source_bucket : string; source_key : string }.
End ReadS3Key.

Module UploadToS3Recursively.
Record t := {
  source_path : FilePath;
  target_bucket : string;
  target_key : string;
  files : gset string;
}.
End UploadToS3Recursively.

Module UploadToS3.
(** [content_type] defaults to [None]. *)
Record t := {
  source_path : FilePath;
  target_bucket : string;
  target_key : string;
  file : FilePath;
  content_type : option string;
}.
End UploadToS3.

(** An intent of any of the classes that the dispatchers know. *)
Inductive Intent :=
| UpdateS3RoutingRulesIntent (i : UpdateS3RoutingRules.t)
| UpdateS3ErrorPageIntent (i : UpdateS3ErrorPage.t)
| CreateCloudFrontInvalidationIntent (i : CreateCloudFrontInvalidation.t)
| DeleteS3KeysIntent (i : DeleteS3Keys.t)
| CopyS3KeysIntent (i : CopyS3Keys.t)
| ListS3KeysIntent (i : ListS3Keys.t)
| DownloadS3KeyRecursivelyIntent (i : DownloadS3KeyRecursively.t)
| DownloadS3KeyIntent (i : DownloadS3Key.t)
| ReadS3KeyIntent (i : ReadS3Key.t)
| UploadToS3RecursivelyIntent (i : UploadToS3Recursively.t)
| UploadToS3Intent (i : UploadToS3.t).

(** What performing an intent returns. *)
Inductive Result :=
| ResultNone
| ResultErrorKey (old_error_key : option string)
| ResultKeys (keys : gset string)
| ResultContent (content : string).

(** ** The fake's state *)

(** What a fake bucket stores under a key: a unicode string, or a
    [ContentTypeUnicode], the subclass of [unicode] that carries a
    [content_type] attribute.  The fake only handles text (see the remark in
    [_perform_upload_s3_key]), so contents are text throughout. *)
Inductive Content :=
| Unicode (value : string)
| ContentTypeUnicode (value : string) (content_type : string).

(** The characters of a stored value: what [unicode] methods, comparison and
    writing to a file see. *)
Definition text (c : Content) : string :=
  match c with
  | Unicode value => value
  | ContentTypeUnicode value _ => value
  end.



Record FakeAWSState := {
  routing_rules : gmap string RoutingRules;
  s3_buckets : gmap string (gmap string Content);
  error_key : gmap string string;
  cloudfront_invalidations : list CreateCloudFrontInvalidation.t;
}.

(** ** pyrsistent's [transform]

    [structure.transform(path, command)] walks [path] from the structure; a
    key missing from a map on the way is read as the empty [pmap()]
    ([_get(structure, key, pmap())]); at the end of the path a command that is
    [discard] deletes the key if it is there, a callable is applied to the
    old value, anything else replaces it.  On the way back up a level stores
    the child only when it is not the object it started from, so discarding
    below a missing key creates nothing. *)
Inductive command (A : Type) :=
| value (v : A)
| discard.
Arguments value {A} v.
Arguments discard {A}.

(** One level: the last step of a path into a map. *)
Definition transform_key {A} (k : string) (c : command A)
    (m : gmap string A) : gmap string A :=
  match c with
  | value v => <[k := v]> m
  | discard => delete k m
  end.

(** Two levels: a path [b, k] into a map of maps. *)
Definition transform_keys {A} (b k : string) (c : command A)
    (m : gmap string (gmap string A)) : gmap string (gmap string A) :=
  match m !! b with
  | Some inner => <[b := transform_key k c inner]> m
  | None =>
      match c with
      | value v => <[b := transform_key k c ∅]> m
      | discard => m
      end
  end.

(** [state.transform(['routing_rules', bucket], rules)] *)
Definition transform_routing_rules (bucket : string) (rules : RoutingRules)
    (s : FakeAWSState) : FakeAWSState :=
  {| routing_rules := transform_key bucket (value rules) (routing_rules s);
     s3_buckets := s3_buckets s;
     error_key := error_key s;
     cloudfront_invalidations := cloudfront_invalidations s |}.

(** [state.transform([u'error_key', bucket], key)] *)
Definition transform_error_key (bucket key : string)
    (s : FakeAWSState) : FakeAWSState :=
  {| routing_rules := routing_rules s;
     s3_buckets := s3_buckets s;
     error_key := transform_key bucket (value key) (error_key s);
     cloudfront_invalidations := cloudfront_invalidations s |}.

(** [state.transform(['cloudfront_invalidations'], f)] with [f] callable *)
Definition transform_cloudfront_invalidations
    (f : list CreateCloudFrontInvalidation.t →
         list CreateCloudFrontInvalidation.t)
    (s : FakeAWSState) : FakeAWSState :=
  {| routing_rules := routing_rules s;
     s3_buckets := s3_buckets s;
     error_key := error_key s;
     cloudfront_invalidations := f (cloudfront_invalidations s) |}.

(** [state.transform(['s3_buckets', bucket, key], command)] *)
Definition transform_s3_buckets (bucket key : string) (c : command Content)
    (s : FakeAWSState) : FakeAWSState :=
  {| routing_rules := routing_rules s;
     s3_buckets := transform_keys bucket key c (s3_buckets s);
     error_key := error_key s;
     cloudfront_invalidations := cloudfront_invalidations s |}.

(** ** The world the performers run in *)

(** The [FakeAWS] object.  Snapshots are immutable objects that live in a
    store and are held by reference: [state] and [initial_state] are the two
    references the object keeps, and whoever read [state] earlier may still
    hold the address it had then. *)
Record FakeAWS := {
  snapshots : list FakeAWSState;
  state : nat;
  initial_state : nat;
}.

(** A snapshot with nothing in it, read where a reference points to no
    snapshot of the store. *)
Definition empty_state : FakeAWSState :=
  {| routing_rules := ∅; s3_buckets := ∅; error_key := ∅;
     cloudfront_invalidations := [] |}.

(** The snapshot a reference points to. *)
Definition snapshot_at (self : FakeAWS) (ref : nat) : FakeAWSState :=
  default empty_state (snapshots self !! ref).

(** [fake_aws(routing_rules, s3_buckets)]; the constructor of [FakeAWS]
    copies the reference into [initial_state]. *)
Definition fake_aws (rules : gmap string RoutingRules)
    (buckets : gmap string (gmap string Content)) : FakeAWS :=
  {| snapshots := [ {| routing_rules := rules; s3_buckets := buckets;
                       error_key := ∅; cloudfront_invalidations := [] |} ];
     state := 0;
     initial_state := 0 |}.

(** The part of boto's S3 service the real performers below use: buckets of
    keys, each with its contents and its metadata headers. *)
Module boto.

Record Key := {
  contents : string;
  metadata : gmap string string;
}.

End boto.

(** The local filesystem as twisted's [FilePath] sees it: regular files with
    their contents, directories, and the working directory.  Reading a file
    that is not there fails; other failures of the machine (permissions, a
    full disk, writing where the directory is missing) are outside the
    model. *)
Record FileSystem := {
  files : gmap string string;
  directories : gset string;
  cwd : string;
}.

(** The fake, the boto service, the filesystem, and the intents handed to
    the dispatcher so far. *)
Record World := {
  aws : FakeAWS;
  s3 : gmap string (gmap string boto.Key);
  filesystem : FileSystem;
  performed : list Intent;
}.

(** The exceptions that are raised. *)
Inductive Exn :=
| KeyError (key : string)
| InsecurePath (path : string)
| IOError (path : string)
| OSError (path : string)
| AttributeError
| S3ResponseError (bucket : string).

(** Computations that read and change the world and may raise. *)
Definition M (A : Type) : Type := World → (Exn + A) * World.

#[global] Instance M_ret : MRet M := λ A a w, (inr a, w).

#[global] Instance M_bind : MBind M := λ A B f m w,
  match m w with
  | (inl e, w') => (inl e, w')
  | (inr a, w') => f a w'
  end.

(** [raise e] *)
Definition raise {A} (e : Exn) : M A := λ w, (inl e, w).

(** [for x in l: body(x)] *)
Fixpoint for_each {A} (l : list A) (body : A → M unit) : M unit :=
  match l with
  | [] => mret tt
  | x :: l' => body x ;; for_each l' body
  end.

(** [try: body finally: final] *)
Definition try_finally {A} (body : M A) (final : M unit) : M A := λ w,
  match body w with
  | (r, w') =>
      match final w' with
      | (inl e, w'') => (inl e, w'')
      | (inr _, w'') => (r, w'')
      end
  end.

(** [m[k]] on a [PMap] *)
Definition getitem {A} (m : gmap string A) (k : string) : M A :=
  match m !! k with
  | Some v => mret v
  | None => raise (KeyError k)
  end.

(** The snapshot [self.state] refers to. *)
Definition current (w : World) : FakeAWSState :=
  snapshot_at (aws w) (state (aws w)).

(** Reading [self.state]. *)
Definition get_state : M FakeAWSState := λ w, (inr (current w), w).

(** [self.state = new]: the snapshot that [transform] built is a new object
    in the store, and the reference is replaced. *)
Definition set_state (new : FakeAWSState) : M unit := λ w,
  (inr tt,
   {| aws := {| snapshots := snapshots (aws w) ++ [new];
                state := length (snapshots (aws w));
                initial_state := initial_state (aws w) |};
      s3 := s3 w;
      filesystem := filesystem w;
      performed := performed w |}).

(** A change of the filesystem, and of its files. *)
Definition with_filesystem (f : FileSystem → FileSystem) (w : World) : World :=
  {| aws := aws w; s3 := s3 w; filesystem := f (filesystem w);
     performed := performed w |}.

Definition with_files (f : gmap string string → gmap string string)
    (fs : FileSystem) : FileSystem :=
  {| files := f (files fs); directories := directories fs; cwd := cwd fs |}.

(** ** [FilePath] methods *)

(** [path.exists()] *)
Definition exists_ (path : FilePath) : M bool := λ w,
  (inr (bool_decide (is_Some (files (filesystem w) !! path))
        || bool_decide (path ∈ directories (filesystem w))), w).

(** [path.isfile()] *)
Definition isfile (path : FilePath) : M bool := λ w,
  (inr (bool_decide (is_Some (files (filesystem w) !! path))), w).

(** [path.open().read()] and [path.getContent()] *)
Definition getContent (path : FilePath) : M string := λ w,
  match files (filesystem w) !! path with
  | Some content => (inr content, w)
  | None => (inl (IOError path), w)
  end.

(** [path.setContent(content)]: the file is created or overwritten with the
    characters of [content]. *)
Definition setContent (path : FilePath) (content : Content) : M unit := λ w,
  (inr tt, with_filesystem (with_files <[path := text content]>) w).

(** [path.remove()]: a regular file is removed; a directory is removed with
    all that is below it. *)
Definition remove (path : FilePath) : M unit := λ w,
  if bool_decide (is_Some (files (filesystem w) !! path)) then
    (inr tt, with_filesystem (with_files (delete path)) w)
  else if bool_decide (path ∈ directories (filesystem w)) then
    (inr tt,
     with_filesystem (λ fs,
       {| files :=
            filter (λ item, Py.startswith item.1 (path +:+ "/") = false)
              (files fs);
          directories :=
            filter (λ dir, dir ≠ path
                           ∧ Py.startswith dir (path +:+ "/") = false)
              (directories fs);
          cwd := cwd fs |}) w)
  else (inl (OSError path), w).

(** [path.parent()] *)
Definition parent (path : FilePath) : M FilePath := λ w,
  (inr (posixpath.abspath (cwd (filesystem w)) (posixpath.dirname path)), w).

(** The directories [os.makedirs] makes sure of: the path and what is above
    it. *)
Fixpoint leading_directories (fuel : nat) (path : string) : list string :=
  match fuel with
  | O => []
  | S fuel' =>
      let head := posixpath.dirname path in
      path :: (if String.eqb head path || String.eqb head "" then []
               else leading_directories fuel' head)
  end.

(** [path.makedirs()] *)
Definition makedirs (path : FilePath) : M unit := λ w,
  if bool_decide (is_Some (files (filesystem w) !! path))
     || bool_decide (path ∈ directories (filesystem w))
  then (inl (OSError path), w)
  else
    (inr tt,
     with_filesystem (λ fs,
       {| files := files fs;
          directories :=
            list_to_set (leading_directories (S (String.length path)) path)
            ∪ directories fs;
          cwd := cwd fs |}) w).

(** [self.preauthChild(path)]: twisted computes
    [abspath(joinpath(self.path, normpath(path)))] and raises [InsecurePath]
    unless the result starts with [self.path]. *)
Definition preauthChild (self : FilePath) (path : string) : M FilePath := λ w,
  let newpath :=
    posixpath.abspath (cwd (filesystem w))
      (posixpath.join self (posixpath.normpath path)) in
  if Py.startswith newpath self then (inr newpath, w)
  else (inl (InsecurePath newpath), w).

(** ** The dispatcher *)

(** A [TypeDispatcher], with the entries that performers resolve through it. *)
Record TypeDispatcher := {
  dispatch_ListS3Keys : ListS3Keys.t → M (gset string);
  dispatch_DownloadS3Key : DownloadS3Key.t → M unit;
  dispatch_UploadToS3 : UploadToS3.t → M unit;
}.

(** Handing an intent to the dispatcher is recorded in [performed]. *)
Definition record (i : Intent) : M unit := λ w,
  (inr tt,
   {| aws := aws w; s3 := s3 w; filesystem := filesystem w;
      performed := performed w ++ [i] |}).

(** [yield Effect(intent)], for each intent that is yielded below. *)
Definition Effect_ListS3Keys (dispatcher : TypeDispatcher)
    (intent : ListS3Keys.t) : M (gset string) :=
  record (ListS3KeysIntent intent) ;; dispatch_ListS3Keys dispatcher intent.

Definition Effect_DownloadS3Key (dispatcher : TypeDispatcher)
    (intent : DownloadS3Key.t) : M unit :=
  record (DownloadS3KeyIntent intent) ;;
  dispatch_DownloadS3Key dispatcher intent.

Definition Effect_UploadToS3 (dispatcher : TypeDispatcher)
    (intent : UploadToS3.t) : M unit :=
  record (UploadToS3Intent intent) ;; dispatch_UploadToS3 dispatcher intent.

(** ** Performers shared by the real and the fake dispatcher *)

Definition perform_download_s3_key_recursively (dispatcher : TypeDispatcher)
    (intent : DownloadS3KeyRecursively.t) : M unit :=
  keys ← Effect_ListS3Keys dispatcher
    {| ListS3Keys.prefix :=
         DownloadS3KeyRecursively.source_prefix intent +:+ "/";
       ListS3Keys.bucket := DownloadS3KeyRecursively.source_bucket intent |};
  for_each (elements keys) (λ key,
    if negb (Py.endswith_any key
               (DownloadS3KeyRecursively.filter_extensions intent))
    then mret tt
    else
      path ← preauthChild (DownloadS3KeyRecursively.target_path intent) key;
      dir ← parent path;
      there ← exists_ dir;
      (if negb there then makedirs dir else mret tt) ;;
      let source_key :=
        posixpath.join (DownloadS3KeyRecursively.source_prefix intent) key in
      Effect_DownloadS3Key dispatcher
        {| DownloadS3Key.source_bucket :=
             DownloadS3KeyRecursively.source_bucket intent;
           DownloadS3Key.source_key := source_key;
           DownloadS3Key.target_path := path |}).

Definition perform_upload_s3_key_recursively (dispatcher : TypeDispatcher)
    (intent : UploadToS3Recursively.t) : M unit :=
  for_each (elements (UploadToS3Recursively.files intent)) (λ child,
    path ← preauthChild (UploadToS3Recursively.source_path intent) child;
    regular ← isfile path;
    if (regular : bool) then
      Effect_UploadToS3 dispatcher
        {| UploadToS3.source_path := UploadToS3Recursively.source_path intent;
           UploadToS3.target_bucket :=
             UploadToS3Recursively.target_bucket intent;
           UploadToS3.target_key :=
             UploadToS3Recursively.target_key intent +:+ "/" +:+ child;
           UploadToS3.file := path;
           UploadToS3.content_type := None |}
    else mret tt).

(** [perform_read_s3_key].  The name of the temporary file is the random
    prefix that [temporarySibling] draws, in front of the name built from
    [__file__]; both are taken as given. *)
Definition perform_read_s3_key (secure_enough_string module_file : string)
    (dispatcher : TypeDispatcher) (intent : ReadS3Key.t) : M string :=
  let target_file :=
    "/tmp/" +:+ secure_enough_string +:+ module_file
            +:+ ".perform_read_s3_key" in
  try_finally
    (Effect_DownloadS3Key dispatcher
       {| DownloadS3Key.source_bucket := ReadS3Key.source_bucket intent;
          DownloadS3Key.source_key := ReadS3Key.source_key intent;
          DownloadS3Key.target_path := target_file |} ;;
     getContent target_file)
    (there ← exists_ target_file;
     if (there : bool) then remove target_file else mret tt).

(** ** The fake performers, methods of [FakeAWS] *)

Definition _perform_update_s3_routing_rules
    (intent : UpdateS3RoutingRules.t) : M unit :=
  s ← get_state;
  set_state (transform_routing_rules (UpdateS3RoutingRules.bucket intent)
               (UpdateS3RoutingRules.routing_rules intent) s).

Definition _perform_update_s3_error_page
    (intent : UpdateS3ErrorPage.t) : M (option string) :=
  let new_error_key := UpdateS3ErrorPage.error_key intent in
  s ← get_state;
  let old_error_key := error_key s !! UpdateS3ErrorPage.bucket intent in
  s ← get_state;
  set_state (transform_error_key (UpdateS3ErrorPage.bucket intent)
               new_error_key s) ;;
  if bool_decide (old_error_key = Some new_error_key) then mret None
  else mret old_error_key.

Definition _perform_create_cloudfront_invalidation
    (intent : CreateCloudFrontInvalidation.t) : M unit :=
  s ← get_state;
  set_state (transform_cloudfront_invalidations (λ l, l ++ [intent]) s).

Definition _perform_delete_s3_keys (intent : DeleteS3Keys.t) : M unit :=
  for_each (DeleteS3Keys.keys intent) (λ key,
    s ← get_state;
    set_state (transform_s3_buckets (DeleteS3Keys.bucket intent)
                 (DeleteS3Keys.prefix intent +:+ key) discard s)).

Definition _perform_copy_s3_keys (intent : CopyS3Keys.t) : M unit :=
  s ← get_state;
  source_bucket ← getitem (s3_buckets s) (CopyS3Keys.source_bucket intent);
  for_each (CopyS3Keys.keys intent) (λ key,
    s ← get_state;
    content ← getitem source_bucket (CopyS3Keys.source_prefix intent +:+ key);
    set_state (transform_s3_buckets (CopyS3Keys.destination_bucket intent)
                 (CopyS3Keys.destination_prefix intent +:+ key)
                 (value content) s)).

Definition _perform_list_s3_keys (intent : ListS3Keys.t) : M (gset string) :=
  s ← get_state;
  bucket ← getitem (s3_buckets s) (ListS3Keys.bucket intent);
  mret (set_map (Py.slice_from (String.length (ListS3Keys.prefix intent)))
          (filter (λ key, Py.startswith key (ListS3Keys.prefix intent) = true)
             (dom bucket))).

Definition _perform_download_s3_key (intent : DownloadS3Key.t) : M unit :=
  s ← get_state;
  bucket ← getitem (s3_buckets s) (DownloadS3Key.source_bucket intent);
  content ← getitem bucket (DownloadS3Key.source_key intent);
  setContent (DownloadS3Key.target_path intent) content.

Definition _perform_upload_s3_key (intent : UploadToS3.t) : M unit :=
  content ← getContent (UploadToS3.file intent);
  let content :=
    match UploadToS3.content_type intent with
    | Some content_type => ContentTypeUnicode content content_type
    | None => Unicode content
    end in
  s ← get_state;
  set_state (transform_s3_buckets (UploadToS3.target_bucket intent)
               (UploadToS3.target_key intent) (value content) s).

(** [FakeAWS.get_dispatcher] *)
Definition get_dispatcher : TypeDispatcher :=
  {| dispatch_ListS3Keys := _perform_list_s3_keys;
     dispatch_DownloadS3Key := _perform_download_s3_key;
     dispatch_UploadToS3 := _perform_upload_s3_key |}.

(** ** The real performers *)

(** A Python 2 dictionary; the order of [items()] is not the order of the
    display, and [table_unambiguous] below shows that the loop that reads it
    does not depend on the order. *)
Definition EXTENSION_MIME_TYPES : list (string * string) := [
  (".eot", "application/vnd.ms-fontobject");
  (".gif", "image/gif");
  (".html", "text/html");
  (".jpg", "image/jpeg");
  (".js", "application/javascript");
  (".css", "text/css");
  (".png", "image/png");
  (".sh", "text/plain");
  (".svg", "image/svg+xml");
  (".ttf", "application/x-font-ttf");
  (".txt", "text/plain");
  (".woff", "application/font-woff");
  (".yml", "text/plain")
].

(** The table as the specification's section on external interfaces lists
    it, for comparison with [EXTENSION_MIME_TYPES]. *)
Definition specified_mime_table : gmap string string :=
  <[".eot" := "application/vnd.ms-fontobject"]> (
  <[".gif" := "image/gif"]> (
  <[".html" := "text/html"]> (
  <[".jpg" := "image/jpeg"]> (
  <[".js" := "application/javascript"]> (
  <[".css" := "text/css"]> (
  <[".png" := "image/png"]> (
  <[".sh" := "text/plain"]> (
  <[".svg" := "image/svg+xml"]> (
  <[".ttf" := "application/x-font-ttf"]> (
  <[".txt" := "text/plain"]> (
  <[".woff" := "application/font-woff"]> (
  <[".yml" := "text/plain"]> ∅)))))))))))).

(** The first entry of a table whose extension ends [key]: the [for] loop
    with its [break]. *)
Definition first_match (table : list (string * string)) (key : string)
    : option (string * string) :=
  List.find (λ item, Py.endswith key item.1) table.

(** The metadata [perform_copy_s3_keys] passes to the copy of [key]. *)
Definition destination_metadata (key : string)
    (metadata : gmap string string) : gmap string string :=
  match first_match EXTENSION_MIME_TYPES key with
  | Some (_, content_type) => <["Content-Type" := content_type]> metadata
  | None => metadata
  end.

(** [s3.get_bucket(name)]: a handle on the bucket, once it is known to
    exist. *)
Definition get_bucket (name : string) : M string := λ w,
  match s3 w !! name with
  | Some _ => (inr name, w)
  | None => (inl (S3ResponseError name), w)
  end.

(** [bucket.get_key(name)]: [None] when there is no such key. *)
Definition get_key (bucket name : string) : M (option boto.Key) := λ w,
  (inr (s3 w !! bucket ≫= (.!! name)), w).

(** [source_key.copy(dst_bucket, dst_key, metadata)]: the destination gets
    the contents of the source and the metadata given. *)
Definition copy (source_key : boto.Key) (dst_bucket dst_key : string)
    (metadata : gmap string string) : M unit := λ w,
  match s3 w !! dst_bucket with
  | Some bucket =>
      (inr tt,
       {| aws := aws w;
          s3 := <[dst_bucket :=
                    <[dst_key := {| boto.contents := boto.contents source_key;
                                    boto.metadata := metadata |}]> bucket]>
                  (s3 w);
          filesystem := filesystem w;
          performed := performed w |})
  | None => (inl AttributeError, w)
  end.

Definition perform_copy_s3_keys (intent : CopyS3Keys.t) : M unit :=
  source_bucket ← get_bucket (CopyS3Keys.source_bucket intent);
  for_each (CopyS3Keys.keys intent) (λ key,
    source_key ← get_key source_bucket
                   (CopyS3Keys.source_prefix intent +:+ key);
    match source_key with
    | None => raise AttributeError
    | Some source_key =>
        copy source_key (CopyS3Keys.destination_bucket intent)
          (CopyS3Keys.destination_prefix intent +:+ key)
          (destination_metadata key (boto.metadata source_key))
    end).


(** The whole table of [FakeAWS.get_dispatcher], applied to an intent:
    [sync_perform(dispatcher, Effect(intent))]. *)
Definition sync_perform (secure_enough_string module_file : string)
    (intent : Intent) : M Result :=
  match intent with
  | DownloadS3KeyRecursivelyIntent i =>
      perform_download_s3_key_recursively get_dispatcher i ;; mret ResultNone
  | UploadToS3RecursivelyIntent i =>
      perform_upload_s3_key_recursively get_dispatcher i ;; mret ResultNone
  | ReadS3KeyIntent i =>
      content ← perform_read_s3_key secure_enough_string module_file
                  get_dispatcher i;
      mret (ResultContent content)
  | UpdateS3RoutingRulesIntent i =>
      _perform_update_s3_routing_rules i ;; mret ResultNone
  | UpdateS3ErrorPageIntent i =>
      old ← _perform_update_s3_error_page i; mret (ResultErrorKey old)
  | ListS3KeysIntent i =>
      keys ← _perform_list_s3_keys i; mret (ResultKeys keys)
  | DeleteS3KeysIntent i => _perform_delete_s3_keys i ;; mret ResultNone
  | CopyS3KeysIntent i => _perform_copy_s3_keys i ;; mret ResultNone
  | DownloadS3KeyIntent i => _perform_download_s3_key i ;; mret ResultNone
  | UploadToS3Intent i => _perform_upload_s3_key i ;; mret ResultNone
  | CreateCloudFrontInvalidationIntent i =>
      _perform_create_cloudfront_invalidation i ;; mret ResultNone
  end.

(** ** Vocabulary of the statements *)

(** [buckets[bucket][key]], when both are there. *)
Definition stored (s : FakeAWSState) (bucket key : string) : option Content :=
  s3_buckets s !! bucket ≫= (.!! key).

(** The buckets with every value read as plain text. *)
Definition text_view (s : FakeAWSState) : gmap string (gmap string string) :=
  (λ bucket : gmap string Content, text <$> bucket) <$> s3_buckets s.

(** The object under [bucket]/[key] in the boto service, when both are
    there. *)
Definition object (w : World) (bucket key : string) : option boto.Key :=
  s3 w !! bucket ≫= (.!! key).

(** What [perform_copy_s3_keys] makes of a source object when it copies
    [key]. *)
Definition copied (key : string) (source_key : boto.Key) : boto.Key :=
  {| boto.contents := boto.contents source_key;
     boto.metadata := destination_metadata key (boto.metadata source_key) |}.

(** A world with the given boto buckets. *)
Definition with_s3 (remote : gmap string (gmap string boto.Key))
    (w : World) : World :=
  {| aws := aws w; s3 := remote; filesystem := filesystem w;
     performed := performed w |}.

(** No two entries of a table can end the same key: an extension that ends
    in another one is that one, with the same content type. *)
Definition unambiguous (table : list (string * string)) : bool :=
  forallb (λ item1 : string * string,
    forallb (λ item2 : string * string,
      negb (Py.endswith item2.1 item1.1)
      || (String.eqb item1.1 item2.1 && String.eqb item1.2 item2.2))
      table) table.

(** The path [self.preauthChild(path)] computes, before it checks it. *)
Definition resolved (fs : FileSystem) (self path : string) : string :=
  posixpath.abspath (cwd fs) (posixpath.join self (posixpath.normpath path)).

(** The [UploadToS3] that [perform_upload_s3_key_recursively] yields for
    [child]. *)
Definition upload_of (intent : UploadToS3Recursively.t) (fs : FileSystem)
    (child : string) : UploadToS3.t :=
  {| UploadToS3.source_path := UploadToS3Recursively.source_path intent;
     UploadToS3.target_bucket := UploadToS3Recursively.target_bucket intent;
     UploadToS3.target_key :=
       UploadToS3Recursively.target_key intent +:+ "/" +:+ child;
     UploadToS3.file :=
       resolved fs (UploadToS3Recursively.source_path intent) child;
     UploadToS3.content_type := None |}.


(** One turn of the loop of [perform_upload_s3_key_recursively]. *)
Definition upload_turn (dispatcher : TypeDispatcher)
    (intent : UploadToS3Recursively.t) (child : string) : M unit :=
  path ← preauthChild (UploadToS3Recursively.source_path intent) child;
  regular ← isfile path;
  if (regular : bool) then
    Effect_UploadToS3 dispatcher
      {| UploadToS3.source_path := UploadToS3Recursively.source_path intent;
         UploadToS3.target_bucket :=
           UploadToS3Recursively.target_bucket intent;
         UploadToS3.target_key :=
           UploadToS3Recursively.target_key intent +:+ "/" +:+ child;
         UploadToS3.file := path;
         UploadToS3.content_type := None |}
  else mret tt.








(** The snapshot after a loop of discards. *)
Definition discarded (bucket prefix : string) (keys : list string)
    (s : FakeAWSState) : FakeAWSState :=
  fold_left (λ s key, transform_s3_buckets bucket (prefix +:+ key) discard s)
    keys s.

(** The store of snapshots has only grown from [w] to [w'], and
    [initial_state] is the reference it was; [state] is the reference it was,
    or a reference to the newest snapshot. *)
Definition grown (w w' : World) : Prop :=
  ∃ new,
    snapshots (aws w') = snapshots (aws w) ++ new
    ∧ initial_state (aws w') = initial_state (aws w)
    ∧ (new = [] ∧ state (aws w') = state (aws w)
       ∨ new ≠ [] ∧ S (state (aws w')) = length (snapshots (aws w'))).

(** The value [_perform_upload_s3_key] stores for a file that reads
    [content]. *)
Definition uploaded (content : string) (content_type : option string)
    : Content :=
  match content_type with
  | Some content_type => ContentTypeUnicode content content_type
  | None => Unicode content
  end.

(** A world for examples: a fake made by [fake_aws], no boto buckets, and a
    filesystem with the given files. *)
Definition world_of (buckets : gmap string (gmap string Content))
    (fs : gmap string string) : World :=
  {| aws := fake_aws ∅ buckets;
     s3 := ∅;
     filesystem := {| files := fs; directories := ∅; cwd := "/" |};
     performed := [] |}.

(** A computation that only ever adds snapshots to the store. *)
Definition keeps_snapshots {A} (m : M A) : Prop := ∀ w, grown w (m w).2.

(** ** Beyond the fake: boto, and sequences of intents *)

(** The world after a sequence of intents has been performed on the fake,
    one after the other, whatever each of them returned or raised. *)
Definition perform_in_turn (secure_enough_string module_file : string)
    (intents : list Intent) (w : World) : World :=
  fold_left
    (λ w intent, (sync_perform secure_enough_string module_file intent w).2)
    intents w.

(** A computation after which a part of the world is what it was. *)
Definition preserves {A B} (part : World → B) (m : M A) : Prop :=
  ∀ w, part (m w).2 = part w.

(** A computation that takes the snapshot of the fake to one related to
    it. *)
Definition steps {A} (R : FakeAWSState → FakeAWSState → Prop) (m : M A)
    : Prop :=
  ∀ w, R (current w) (current (m w).2).

(** Snapshots that differ at most in their buckets. *)
Definition same_but_buckets (s s' : FakeAWSState) : Prop :=
  routing_rules s' = routing_rules s
  ∧ error_key s' = error_key s
  ∧ cloudfront_invalidations s' = cloudfront_invalidations s.

(** The invalidations among a sequence of intents. *)
Definition invalidations_of (intents : list Intent)
    : list CreateCloudFrontInvalidation.t :=
  omap (λ intent,
          match intent with
          | CreateCloudFrontInvalidationIntent i => Some i
          | _ => None
          end) intents.

(** [bucket.list(prefix)]: the names of the keys of the bucket that start
    with the prefix. *)
Definition bucket_list (bucket prefix : string) : M (gset string) := λ w,
  (inr (filter (λ name, Py.startswith name prefix = true)
          (dom (default ∅ (s3 w !! bucket)))), w).

Definition perform_list_s3_keys (intent : ListS3Keys.t) : M (gset string) :=
  bucket ← get_bucket (ListS3Keys.bucket intent);
  keys ← bucket_list bucket (ListS3Keys.prefix intent);
  mret (set_map (Py.slice_from (String.length (ListS3Keys.prefix intent)))
          keys).

(** [bucket.delete_keys(names)]: the named keys are removed; a name that is
    no key of the bucket is passed over. *)
Definition delete_keys (bucket : string) (names : list string) : M unit := λ w,
  match s3 w !! bucket with
  | Some keys =>
      (inr tt,
       with_s3 (<[bucket := foldr delete keys names]> (s3 w)) w)
  | None => (inl (S3ResponseError bucket), w)
  end.

Definition perform_delete_s3_keys (intent : DeleteS3Keys.t) : M unit :=
  bucket ← get_bucket (DeleteS3Keys.bucket intent);
  delete_keys bucket
    ((λ key, DeleteS3Keys.prefix intent +:+ key) <$> DeleteS3Keys.keys intent).

(** The snapshot of the fake and the boto service hold the same: the same
    buckets, the same keys in each, the same characters under each key. *)
Definition mirrors (w : World) : Prop :=
  (∀ b, is_Some (s3_buckets (current w) !! b) ↔ is_Some (s3 w !! b))
  ∧ (∀ b k, text <$> stored (current w) b k
            = boto.contents <$> object w b k).

(** The buckets of the service with every object read as its contents. *)
Definition contents_view (remote : gmap string (gmap string boto.Key))
    : gmap string (gmap string string) :=
  (λ bucket : gmap string boto.Key, boto.contents <$> bucket) <$> remote.

(** The website configuration of a bucket, as boto hands it out. *)
Module website.
Record Configuration := {
  routing_rules : RoutingRules;
  error_key : option string;
}.
End website.

(** [perform_update_s3_error_page], on the website configurations that the
    service keeps for its buckets: they are taken in and given back, with
    what the performer returns or raises. *)
Definition perform_update_s3_error_page
    (configurations : gmap string website.Configuration)
    (intent : UpdateS3ErrorPage.t)
    : (Exn + option string) * gmap string website.Configuration :=
  match configurations !! UpdateS3ErrorPage.bucket intent with
  | None =>
      (inl (S3ResponseError (UpdateS3ErrorPage.bucket intent)), configurations)
  | Some config =>
      let new_error_key := UpdateS3ErrorPage.error_key intent in
      let old_error_key := website.error_key config in
      if bool_decide (old_error_key = Some new_error_key) then
        (inr None, configurations)
      else
        (inr old_error_key,
         <[UpdateS3ErrorPage.bucket intent
             := {| website.routing_rules := website.routing_rules config;
                   website.error_key := Some new_error_key |}]>
           configurations)
  end.

(** [perform_update_s3_routing_rules], on the website configurations that
    the service keeps for its buckets. *)
Definition perform_update_s3_routing_rules
    (configurations : gmap string website.Configuration)
    (intent : UpdateS3RoutingRules.t)
    : (Exn + unit) * gmap string website.Configuration :=
  match configurations !! UpdateS3RoutingRules.bucket intent with
  | None =>
      (inl (S3ResponseError (UpdateS3RoutingRules.bucket intent)),
       configurations)
  | Some config =>
      (inr tt,
       <[UpdateS3RoutingRules.bucket intent
           := {| website.routing_rules :=
                   UpdateS3RoutingRules.routing_rules intent;
                 website.error_key := website.error_key config |}]>
         configurations)
  end.

(** The routing rules that the fake has recorded are the ones that the
    website configurations carry. *)
Definition rules_recorded (s : FakeAWSState)
    (configurations : gmap string website.Configuration) : Prop :=
  ∀ b rules,
    routing_rules s !! b = Some rules →
    website.routing_rules <$> configurations !! b = Some rules.

(** The error keys that the website configurations carry. *)
Definition error_keys (configurations : gmap string website.Configuration)
    : gmap string string :=
  omap website.error_key configurations.

(** * Properties *)

(** ** Strings *)

Lemma app_cons (a : ascii) (s t : string) :
  String a s +:+ t = String a (s +:+ t).
Proof. reflexivity. Qed.

Lemma startswith_app (p s : string) : Py.startswith (p +:+ s) p = true.
Proof.
  unfold Py.startswith. induction p as [|a p IH].
  - destruct s; reflexivity.
  - rewrite app_cons. simpl. destruct (ascii_dec a a); [exact IH | congruence].
Qed.

Lemma slice_from_app (p s : string) :
  Py.slice_from (String.length p) (p +:+ s) = s.
Proof. induction p as [|a p IH]; [reflexivity | exact IH]. Qed.

Lemma startswith_split (s p : string) :
  Py.startswith s p = true → s = p +:+ Py.slice_from (String.length p) s.
Proof.
  unfold Py.startswith. revert s. induction p as [|a p IH]; intros s H.
  - reflexivity.
  - destruct s as [|b s]; simpl in H; [discriminate |].
    destruct (ascii_dec a b) as [->|]; [| discriminate].
    rewrite app_cons. simpl. f_equal. apply IH, H.
Qed.

(** ** Running the monad *)

Lemma current_set_state (new : FakeAWSState) (w : World) :
  current (set_state new w).2 = new.
Proof.
  unfold current, snapshot_at. simpl.
  rewrite lookup_app_r by lia. rewrite Nat.sub_diag. reflexivity.
Qed.

(** ** What each fake performer does *)

Lemma run_list_s3_keys (intent : ListS3Keys.t) (w : World)
    (bucket : gmap string Content) :
  s3_buckets (current w) !! ListS3Keys.bucket intent = Some bucket →
  _perform_list_s3_keys intent w =
    (inr (set_map (Py.slice_from (String.length (ListS3Keys.prefix intent)))
            (filter (λ key,
                       Py.startswith key (ListS3Keys.prefix intent) = true)
               (dom bucket))), w).
Proof.
  intros H. unfold _perform_list_s3_keys, mbind, M_bind, get_state, getitem.
  rewrite H. reflexivity.
Qed.

Lemma run_list_s3_keys_absent (intent : ListS3Keys.t) (w : World) :
  s3_buckets (current w) !! ListS3Keys.bucket intent = None →
  _perform_list_s3_keys intent w =
    (inl (KeyError (ListS3Keys.bucket intent)), w).
Proof.
  intros H. unfold _perform_list_s3_keys, mbind, M_bind, get_state, getitem.
  rewrite H. reflexivity.
Qed.

Lemma elem_of_listed (prefix name : string) (bucket : gmap string Content) :
  name ∈ (set_map (Py.slice_from (String.length prefix))
            (filter (λ key, Py.startswith key prefix = true) (dom bucket))
          : gset string)
  ↔ is_Some (bucket !! (prefix +:+ name)).
Proof.
  rewrite elem_of_map. split.
  - intros (key & -> & Hkey). apply elem_of_filter in Hkey as [Hp Hd].
    apply elem_of_dom in Hd. rewrite <- (startswith_split _ _ Hp). exact Hd.
  - intros H. exists (prefix +:+ name). split.
    + symmetry. apply slice_from_app.
    + apply elem_of_filter. split; [apply startswith_app |].
      apply elem_of_dom, H.
Qed.

Lemma run_download_s3_key (intent : DownloadS3Key.t) (w : World)
    (bucket : gmap string Content) (content : Content) :
  s3_buckets (current w) !! DownloadS3Key.source_bucket intent = Some bucket →
  bucket !! DownloadS3Key.source_key intent = Some content →
  _perform_download_s3_key intent w =
    (inr tt,
     with_filesystem
       (with_files <[DownloadS3Key.target_path intent := text content]>) w).
Proof.
  intros Hb Hk.
  unfold _perform_download_s3_key, mbind, M_bind, get_state, getitem.
  rewrite Hb. simpl. rewrite Hk. reflexivity.
Qed.

Lemma run_download_s3_key_no_bucket (intent : DownloadS3Key.t) (w : World) :
  s3_buckets (current w) !! DownloadS3Key.source_bucket intent = None →
  _perform_download_s3_key intent w =
    (inl (KeyError (DownloadS3Key.source_bucket intent)), w).
Proof.
  intros Hb.
  unfold _perform_download_s3_key, mbind, M_bind, get_state, getitem.
  rewrite Hb. reflexivity.
Qed.

Lemma run_download_s3_key_no_key (intent : DownloadS3Key.t) (w : World)
    (bucket : gmap string Content) :
  s3_buckets (current w) !! DownloadS3Key.source_bucket intent = Some bucket →
  bucket !! DownloadS3Key.source_key intent = None →
  _perform_download_s3_key intent w =
    (inl (KeyError (DownloadS3Key.source_key intent)), w).
Proof.
  intros Hb Hk.
  unfold _perform_download_s3_key, mbind, M_bind, get_state, getitem.
  rewrite Hb. simpl. rewrite Hk. reflexivity.
Qed.

Lemma run_upload_s3_key (intent : UploadToS3.t) (w : World)
    (content : string) :
  files (filesystem w) !! UploadToS3.file intent = Some content →
  _perform_upload_s3_key intent w =
    (inr tt,
     (set_state
        (transform_s3_buckets (UploadToS3.target_bucket intent)
           (UploadToS3.target_key intent)
           (value (uploaded content (UploadToS3.content_type intent)))
           (current w)) w).2).
Proof.
  intros H. unfold _perform_upload_s3_key, mbind, M_bind, get_state, getContent.
  rewrite H. reflexivity.
Qed.

Lemma lookup_transform_keys_value {A} (b k : string) (v : A)
    (m : gmap string (gmap string A)) :
  ∃ inner, transform_keys b k (value v) m !! b = Some inner
           ∧ inner !! k = Some v.
Proof.
  unfold transform_keys. destruct (m !! b) as [inner|].
  - exists (<[k := v]> inner). split; apply lookup_insert_eq.
  - exists (<[k := v]> ∅). split; apply lookup_insert_eq.
Qed.

(** ** Upload, then list and download *)



(** ** Download *)



(** ** Reading what is not there *)

(** C5, as stated, fails: with no bucket [docs] in the snapshot, [ListS3Keys]
    of [docs] does not return the empty set, it raises. *)
Lemma C5_list_absent_bucket_raises :
  s3_buckets (current (world_of ∅ ∅)) !! "docs" = None
  ∧ ¬ ∃ w',
      _perform_list_s3_keys
        {| ListS3Keys.bucket := "docs"; ListS3Keys.prefix := "" |}
        (world_of ∅ ∅) = (inr ∅, w').
Proof.
  split; [reflexivity |]. intros [w' H].
  rewrite run_list_s3_keys_absent in H by reflexivity. discriminate.
Qed.

Lemma run_update_s3_error_page (intent : UpdateS3ErrorPage.t) (w : World) :
  _perform_update_s3_error_page intent w =
    (inr (if bool_decide (error_key (current w) !! UpdateS3ErrorPage.bucket intent
                          = Some (UpdateS3ErrorPage.error_key intent))
          then None
          else error_key (current w) !! UpdateS3ErrorPage.bucket intent),
     (set_state (transform_error_key (UpdateS3ErrorPage.bucket intent)
                   (UpdateS3ErrorPage.error_key intent) (current w)) w).2).
Proof.
  unfold _perform_update_s3_error_page, mbind, M_bind, get_state. simpl.
  case_bool_decide; reflexivity.
Qed.

(** C5, amended.  With no entry for the bucket in the snapshot, [ListS3Keys]
    raises [KeyError] for the bucket and changes nothing; a bucket that is
    there and holds no key lists as the empty set; and with no error key for
    the bucket, [UpdateS3ErrorPage] reads the old key as none, returns none
    and does not raise. *)
Theorem C5_absent_reads (w : World) (bucket : string) :
  (∀ prefix,
     s3_buckets (current w) !! bucket = None →
     _perform_list_s3_keys
       {| ListS3Keys.bucket := bucket; ListS3Keys.prefix := prefix |} w
     = (inl (KeyError bucket), w))
  ∧ (∀ prefix,
       s3_buckets (current w) !! bucket = Some ∅ →
       _perform_list_s3_keys
         {| ListS3Keys.bucket := bucket; ListS3Keys.prefix := prefix |} w
       = (inr ∅, w))
  ∧ (∀ target_prefix,
       error_key (current w) !! bucket = None →
       (_perform_update_s3_error_page
          {| UpdateS3ErrorPage.bucket := bucket;
             UpdateS3ErrorPage.target_prefix := target_prefix |} w).1
       = inr None).
Proof.
  split; [| split].
  - intros prefix H. apply run_list_s3_keys_absent, H.
  - intros prefix H.
    rewrite (run_list_s3_keys
               {| ListS3Keys.bucket := bucket; ListS3Keys.prefix := prefix |}
               w ∅ H).
    reflexivity.
  - intros target_prefix H. rewrite run_update_s3_error_page. simpl.
    rewrite H. reflexivity.
Qed.

Lemma C5_absent_reads_witness :
  _perform_list_s3_keys
    {| ListS3Keys.bucket := "docs"; ListS3Keys.prefix := "a/" |}
    (world_of {["other" := ∅]} ∅)
  = (inl (KeyError "docs"), world_of {["other" := ∅]} ∅)
  ∧ _perform_list_s3_keys
      {| ListS3Keys.bucket := "other"; ListS3Keys.prefix := "a/" |}
      (world_of {["other" := ∅]} ∅)
    = (inr ∅, world_of {["other" := ∅]} ∅)
  ∧ (_perform_update_s3_error_page
       {| UpdateS3ErrorPage.bucket := "docs";
          UpdateS3ErrorPage.target_prefix := "en/" |}
       (world_of {["other" := ∅]} ∅)).1 = inr None.
Proof.
  destruct (C5_absent_reads (world_of {["other" := ∅]} ∅) "docs")
    as (Hlist & _ & Hkey).
  destruct (C5_absent_reads (world_of {["other" := ∅]} ∅) "other")
    as (_ & Hempty & _).
  split; [| split].
  - apply Hlist. reflexivity.
  - apply Hempty. reflexivity.
  - apply Hkey. reflexivity.
Defined.

(** ** The error page *)

Lemma transform_error_key_same (bucket key : string) (s : FakeAWSState) :
  error_key s !! bucket = Some key → transform_error_key bucket key s = s.
Proof.
  intros H. destruct s as [rr bs ek ci]. unfold transform_error_key. simpl in *.
  f_equal. apply insert_id, H.
Qed.

(** C3, as stated, fails: on a bucket that has no error key yet the call
    returns none although the new key is not the existing one, and the key
    has changed. *)
Lemma C3_fresh_bucket_returns_none :
  let intent := {| UpdateS3ErrorPage.bucket := "docs";
                   UpdateS3ErrorPage.target_prefix := "en/latest/" |} in
  let w := world_of ∅ ∅ in
  let outcome := _perform_update_s3_error_page intent w in
  outcome.1 = inr None
  ∧ error_key (current w) !! "docs" ≠ Some (UpdateS3ErrorPage.error_key intent)
  ∧ error_key (current outcome.2) !! "docs" ≠ error_key (current w) !! "docs".
Proof. repeat split; discriminate. Qed.

(** C3, amended.  The new key is the target prefix followed by
    [error_pages/404.html].  The call returns the previous key of the bucket
    when there is one and it differs from the new key, and none otherwise:
    when the keys are equal, and also when the bucket had no error key.
    Afterwards the bucket's error key is the new key and nothing else in the
    snapshot has changed, so with equal keys the snapshot is the one it was.
    A second call with the same target prefix returns none and leaves the
    snapshot as the first call left it. *)
Theorem C3_update_error_page (w : World) (intent : UpdateS3ErrorPage.t) :
  let bucket := UpdateS3ErrorPage.bucket intent in
  let new := UpdateS3ErrorPage.error_key intent in
  let old := error_key (current w) !! bucket in
  let first := _perform_update_s3_error_page intent w in
  let second := _perform_update_s3_error_page intent first.2 in
  new = UpdateS3ErrorPage.target_prefix intent +:+ "error_pages/404.html"
  ∧ (first.1 = inr None ↔ old = Some new ∨ old = None)
  ∧ (∀ previous,
       first.1 = inr (Some previous) ↔ old = Some previous ∧ previous ≠ new)
  ∧ (∃ result, first.1 = inr result)
  ∧ current first.2 = transform_error_key bucket new (current w)
  ∧ error_key (current first.2) !! bucket = Some new
  ∧ (old = Some new → current first.2 = current w)
  ∧ second.1 = inr None
  ∧ current second.2 = current first.2.
Proof.
  cbv zeta. rewrite !run_update_s3_error_page. cbn [fst snd].
  rewrite !current_set_state. cbn [error_key transform_error_key].
  set (bucket := UpdateS3ErrorPage.bucket intent).
  set (new := UpdateS3ErrorPage.error_key intent).
  split; [reflexivity |]. split; [| split; [| split; [| split; [| split]]]].
  - case_bool_decide as Hd.
    + split; [intros _; left; exact Hd | reflexivity].
    + split.
      * intros [= ->]. right. reflexivity.
      * intros [H | H]; [contradiction | rewrite H; reflexivity].
  - intros previous. case_bool_decide as Hd.
    + split; [discriminate |]. intros [H Hne]. congruence.
    + split.
      * intros [= H]. split; [exact H | congruence].
      * intros [H _]. rewrite H. reflexivity.
  - eauto.
  - reflexivity.
  - apply lookup_insert_eq.
  - split; [| split].
    + intros H. apply transform_error_key_same, H.
    + unfold transform_key. rewrite lookup_insert_eq.
      rewrite bool_decide_eq_true_2; reflexivity.
    + apply transform_error_key_same. simpl. apply lookup_insert_eq.
Qed.

(** ** Delete *)

Lemma stored_discard (b k b' k' : string) (s : FakeAWSState) :
  stored (transform_s3_buckets b k discard s) b' k'
  = if decide (b' = b ∧ k' = k) then None else stored s b' k'.
Proof.
  unfold stored, transform_s3_buckets, transform_keys. simpl.
  destruct (s3_buckets s !! b) as [inner|] eqn:Hb.
  - destruct (decide (b' = b)) as [->|Hne].
    + rewrite lookup_insert_eq, Hb. simpl.
      destruct (decide (k' = k)) as [->|Hk].
      * rewrite decide_True by done. apply lookup_delete_eq.
      * rewrite decide_False by (intros [_ ?]; done).
        apply lookup_delete_ne. congruence.
    + rewrite lookup_insert_ne by congruence.
      rewrite decide_False by (intros [? _]; done). reflexivity.
  - case_decide as Hd; [| reflexivity].
    destruct Hd as [-> ->]. rewrite Hb. reflexivity.
Qed.

Lemma bucket_discard (b k b' : string) (s : FakeAWSState) :
  is_Some (s3_buckets (transform_s3_buckets b k discard s) !! b')
  ↔ is_Some (s3_buckets s !! b').
Proof.
  unfold transform_s3_buckets, transform_keys. simpl.
  destruct (s3_buckets s !! b) as [inner|] eqn:Hb; [| reflexivity].
  destruct (decide (b' = b)) as [->|Hne].
  - rewrite lookup_insert_eq, Hb. split; eauto.
  - rewrite lookup_insert_ne by congruence. reflexivity.
Qed.

Lemma discard_absent (b k : string) (s : FakeAWSState) :
  stored s b k = None → transform_s3_buckets b k discard s = s.
Proof.
  unfold stored, transform_s3_buckets, transform_keys.
  destruct s as [rr bs ek ci]. simpl.
  destruct (bs !! b) as [inner|] eqn:Hb; simpl; [| reflexivity].
  intros Hk. f_equal. rewrite delete_id by exact Hk.
  apply insert_id, Hb.
Qed.

Lemma run_delete_s3_keys (intent : DeleteS3Keys.t) (w : World) :
  ∃ w',
    _perform_delete_s3_keys intent w = (inr tt, w')
    ∧ current w' = discarded (DeleteS3Keys.bucket intent)
                     (DeleteS3Keys.prefix intent) (DeleteS3Keys.keys intent)
                     (current w)
    ∧ filesystem w' = filesystem w.
Proof.
  unfold _perform_delete_s3_keys, discarded.
  generalize (DeleteS3Keys.keys intent) as keys. intros keys. revert w.
  induction keys as [|key keys IH]; intros w.
  - exists w. done.
  - destruct (IH (set_state
                    (transform_s3_buckets (DeleteS3Keys.bucket intent)
                       (DeleteS3Keys.prefix intent +:+ key) discard
                       (current w)) w).2) as (w' & Hrun & Hcur & Hfs).
    exists w'. split; [| split].
    + exact Hrun.
    + rewrite Hcur, current_set_state. reflexivity.
    + exact Hfs.
Qed.

Lemma stored_discarded_absent (bucket prefix : string) (keys : list string)
    (s : FakeAWSState) (b k : string) :
  stored s b k = None → stored (discarded bucket prefix keys s) b k = None.
Proof.
  unfold discarded. revert s. induction keys as [|key keys IH]; intros s H.
  - exact H.
  - simpl. apply IH. rewrite stored_discard. case_decide; done.
Qed.

Lemma stored_discarded (bucket prefix : string) (keys : list string)
    (s : FakeAWSState) (key : string) :
  key ∈ keys →
  stored (discarded bucket prefix keys s) bucket (prefix +:+ key) = None.
Proof.
  revert s. induction keys as [|key' keys IH]; intros s Hin.
  - inversion Hin.
  - apply elem_of_cons in Hin as [-> | Hin].
    + apply (stored_discarded_absent bucket prefix keys).
      rewrite stored_discard. rewrite decide_True; done.
    + apply (IH _ Hin).
Qed.

Lemma bucket_discarded (bucket prefix : string) (keys : list string)
    (s : FakeAWSState) (b : string) :
  is_Some (s3_buckets (discarded bucket prefix keys s) !! b)
  ↔ is_Some (s3_buckets s !! b).
Proof.
  unfold discarded. revert s. induction keys as [|key keys IH]; intros s; simpl.
  - reflexivity.
  - rewrite IH. apply bucket_discard.
Qed.

Lemma discarded_absent (bucket prefix : string) (keys : list string)
    (s : FakeAWSState) :
  (∀ key, key ∈ keys → stored s bucket (prefix +:+ key) = None) →
  discarded bucket prefix keys s = s.
Proof.
  unfold discarded. induction keys as [|key keys IH]; intros H; simpl.
  - reflexivity.
  - rewrite discard_absent by (apply H; by left).
    apply IH. intros key' Hin. apply H. by right.
Qed.

(** C7. [DeleteS3Keys] never raises.  Afterwards none of the keys is stored
    in the bucket, so [ListS3Keys] of the bucket, with any prefix [p] of a
    deleted key, returns a set without that key stripped of [p] (where the
    snapshot has no such bucket there is nothing to list and [ListS3Keys]
    raises as it did before).  When none of the keys was stored the snapshot
    is the one it was, and performing the same intent a second time leaves
    the snapshot as the first left it. *)
Theorem C7_delete_keys (w : World) (intent : DeleteS3Keys.t) :
  let bucket := DeleteS3Keys.bucket intent in
  let prefix := DeleteS3Keys.prefix intent in
  let first := _perform_delete_s3_keys intent w in
  let second := _perform_delete_s3_keys intent first.2 in
  first.1 = inr tt
  ∧ (∀ key, key ∈ DeleteS3Keys.keys intent →
       stored (current first.2) bucket (prefix +:+ key) = None)
  ∧ (∀ key p, key ∈ DeleteS3Keys.keys intent →
       Py.startswith (prefix +:+ key) p = true →
       let listing := _perform_list_s3_keys
                        {| ListS3Keys.bucket := bucket;
                           ListS3Keys.prefix := p |} first.2 in
       match s3_buckets (current w) !! bucket with
       | Some _ =>
           ∃ listed,
             listing = (inr listed, first.2)
             ∧ Py.slice_from (String.length p) (prefix +:+ key) ∉ listed
       | None => listing = (inl (KeyError bucket), first.2)
       end)
  ∧ ((∀ key, key ∈ DeleteS3Keys.keys intent →
        stored (current w) bucket (prefix +:+ key) = None) →
     current first.2 = current w)
  ∧ second.1 = inr tt
  ∧ current second.2 = current first.2.
Proof.
  cbv zeta.
  destruct (run_delete_s3_keys intent w) as (w1 & Hrun1 & Hcur1 & _).
  rewrite Hrun1. cbn [fst snd].
  destruct (run_delete_s3_keys intent w1) as (w2 & Hrun2 & Hcur2 & _).
  rewrite Hrun2. cbn [fst snd].
  split; [reflexivity |]. split; [| split; [| split; [| split]]].
  - intros key Hin. rewrite Hcur1. apply stored_discarded, Hin.
  - intros key p Hin Hp.
    pose proof (bucket_discarded (DeleteS3Keys.bucket intent)
                  (DeleteS3Keys.prefix intent) (DeleteS3Keys.keys intent)
                  (current w) (DeleteS3Keys.bucket intent)) as Hb.
    rewrite <- Hcur1 in Hb.
    destruct (s3_buckets (current w) !! DeleteS3Keys.bucket intent)
      as [inner|] eqn:Hw.
    + destruct (proj2 Hb) as [inner1 Hinner1]; [eauto |].
      eexists. split.
      { apply (run_list_s3_keys
                 {| ListS3Keys.bucket := DeleteS3Keys.bucket intent;
                    ListS3Keys.prefix := p |} w1 inner1 Hinner1). }
      rewrite elem_of_listed. cbn [ListS3Keys.prefix].
      rewrite <- (startswith_split _ _ Hp).
      pose proof (stored_discarded (DeleteS3Keys.bucket intent)
                    (DeleteS3Keys.prefix intent) _ (current w) key Hin) as Hs.
      rewrite <- Hcur1 in Hs. unfold stored in Hs. rewrite Hinner1 in Hs.
      simpl in Hs. rewrite Hs. intros [? ?]. discriminate.
    + apply run_list_s3_keys_absent. cbn [ListS3Keys.bucket].
      destruct (s3_buckets (current w1) !! DeleteS3Keys.bucket intent) eqn:H1;
        [| reflexivity].
      destruct (proj1 Hb) as [? ?]; [eauto | discriminate].
  - intros Habsent. rewrite Hcur1. apply discarded_absent, Habsent.
  - reflexivity.
  - rewrite Hcur2. apply discarded_absent. intros key Hin.
    rewrite Hcur1. apply stored_discarded, Hin.
Qed.

(** Deleting [a/b.html] from a bucket that holds it and [a/c.html]. *)
Example delete_then_list :
  let w := world_of {["docs" := {["a/b.html" := Unicode "b";
                                  "a/c.html" := Unicode "c"]}]} ∅ in
  let w1 := (_perform_delete_s3_keys
               {| DeleteS3Keys.bucket := "docs"; DeleteS3Keys.prefix := "";
                  DeleteS3Keys.keys := ["a/b.html"] |} w).2 in
  (_perform_list_s3_keys
     {| ListS3Keys.bucket := "docs"; ListS3Keys.prefix := "a/" |} w1).1
  = inr {["c.html"]}.
Proof. vm_compute. reflexivity. Qed.

(** ** Content types *)















Lemma stored_value (b k : string) (v : Content) (s : FakeAWSState) :
  stored (transform_s3_buckets b k (value v) s) b k = Some v.
Proof.
  unfold stored. cbn [s3_buckets transform_s3_buckets].
  destruct (lookup_transform_keys_value b k v (s3_buckets s))
    as (inner & -> & Hk).
  exact Hk.
Qed.



(** ** Snapshots are never changed *)

Lemma grown_same_aws (w w' : World) : aws w' = aws w → grown w w'.
Proof.
  intros H. exists []. rewrite H, app_nil_r. split; [done |]. split; [done |].
  left. done.
Qed.

Lemma grown_trans (w1 w2 w3 : World) : grown w1 w2 → grown w2 w3 → grown w1 w3.
Proof.
  intros (new1 & Hs1 & Hi1 & Hst1) (new2 & Hs2 & Hi2 & Hst2).
  exists (new1 ++ new2). split; [| split].
  - rewrite Hs2, Hs1, app_assoc. reflexivity.
  - congruence.
  - destruct Hst2 as [[Hn2 Hst2] | [Hne Hst2]].
    + subst new2. rewrite app_nil_r in Hs2. rewrite app_nil_r.
      destruct Hst1 as [[Hn1 Hst1] | [Hne Hst1]].
      * left. split; [exact Hn1 | congruence].
      * right. split; [exact Hne | congruence].
    + right. split; [| exact Hst2].
      intros Happ. apply app_eq_nil in Happ as [_ ?]. done.
Qed.

Lemma grown_lookup (w w' : World) (ref : nat) :
  grown w w' → ref < length (snapshots (aws w)) →
  snapshots (aws w') !! ref = snapshots (aws w) !! ref.
Proof.
  intros (new & Hs & _ & _) Hlt. rewrite Hs. apply lookup_app_l, Hlt.
Qed.

Lemma keeps_ret {A} (a : A) : keeps_snapshots (mret a).
Proof. intros w. apply grown_same_aws. reflexivity. Qed.

Lemma keeps_raise {A} (e : Exn) : keeps_snapshots (raise e : M A).
Proof. intros w. apply grown_same_aws. reflexivity. Qed.

Lemma keeps_bind {A B} (m : M A) (f : A → M B) :
  keeps_snapshots m → (∀ a, keeps_snapshots (f a)) → keeps_snapshots (m ≫= f).
Proof.
  intros Hm Hf w. specialize (Hm w). unfold mbind, M_bind.
  destruct (m w) as [[e|a] v]; cbn [fst snd] in *; [exact Hm |].
  apply (grown_trans _ v); [exact Hm | apply Hf].
Qed.

Lemma keeps_for_each {A} (l : list A) (body : A → M unit) :
  (∀ x, keeps_snapshots (body x)) → keeps_snapshots (for_each l body).
Proof.
  intros Hbody. induction l as [|x l IH]; simpl.
  - apply keeps_ret.
  - apply keeps_bind; [apply Hbody | intros _; exact IH].
Qed.

Lemma keeps_try_finally {A} (body : M A) (final : M unit) :
  keeps_snapshots body → keeps_snapshots final →
  keeps_snapshots (try_finally body final).
Proof.
  intros Hb Hf w. specialize (Hb w). unfold try_finally.
  destruct (body w) as [r v]; cbn [fst snd] in *. specialize (Hf v).
  destruct (final v) as [[e|[]] u]; cbn [fst snd] in *;
    apply (grown_trans _ v); assumption.
Qed.

Lemma keeps_same_aws {A} (m : M A) :
  (∀ w, aws (m w).2 = aws w) → keeps_snapshots m.
Proof. intros H w. apply grown_same_aws, H. Qed.

Lemma keeps_get_state : keeps_snapshots get_state.
Proof. apply keeps_same_aws. reflexivity. Qed.

Lemma keeps_set_state (new : FakeAWSState) : keeps_snapshots (set_state new).
Proof.
  intros w. exists [new]. split; [reflexivity |]. split; [reflexivity |].
  right. split; [done |]. simpl. rewrite length_app. simpl. lia.
Qed.

Lemma keeps_getitem {A} (m : gmap string A) (k : string) :
  keeps_snapshots (getitem m k).
Proof. unfold getitem. destruct (m !! k); [apply keeps_ret | apply keeps_raise]. Qed.

Lemma keeps_record (i : Intent) : keeps_snapshots (record i).
Proof. apply keeps_same_aws. reflexivity. Qed.

Lemma keeps_exists (path : string) : keeps_snapshots (exists_ path).
Proof. apply keeps_same_aws. reflexivity. Qed.

Lemma keeps_isfile (path : string) : keeps_snapshots (isfile path).
Proof. apply keeps_same_aws. reflexivity. Qed.

Lemma keeps_parent (path : string) : keeps_snapshots (parent path).
Proof. apply keeps_same_aws. reflexivity. Qed.

Lemma keeps_getContent (path : string) : keeps_snapshots (getContent path).
Proof.
  apply keeps_same_aws. intros w. unfold getContent.
  destruct (files (filesystem w) !! path); reflexivity.
Qed.

Lemma keeps_setContent (path : string) (content : Content) :
  keeps_snapshots (setContent path content).
Proof. apply keeps_same_aws. reflexivity. Qed.

Lemma keeps_remove (path : string) : keeps_snapshots (remove path).
Proof.
  apply keeps_same_aws. intros w. unfold remove.
  repeat case_bool_decide; reflexivity.
Qed.

Lemma keeps_makedirs (path : string) : keeps_snapshots (makedirs path).
Proof.
  apply keeps_same_aws. intros w. unfold makedirs.
  destruct (_ || _); reflexivity.
Qed.

Lemma keeps_preauthChild (self path : string) :
  keeps_snapshots (preauthChild self path).
Proof.
  apply keeps_same_aws. intros w. unfold preauthChild.
  destruct (Py.startswith _ _); reflexivity.
Qed.

Create HintDb keeps discriminated.

#[local] Hint Resolve keeps_ret keeps_raise keeps_get_state keeps_set_state
  keeps_getitem keeps_record keeps_exists keeps_isfile keeps_parent
  keeps_getContent keeps_setContent keeps_remove keeps_makedirs
  keeps_preauthChild : keeps.

Ltac keeps_step :=
  first
    [ apply keeps_bind; [| intros ?]
    | apply keeps_for_each; intros ?
    | apply keeps_try_finally
    | solve [auto with keeps]
    | match goal with
      | |- keeps_snapshots (if ?b then _ else _) => destruct b
      | |- keeps_snapshots (match ?o with _ => _ end) => destruct o
      end ].

Lemma keeps_list (intent : ListS3Keys.t) :
  keeps_snapshots (_perform_list_s3_keys intent).
Proof. unfold _perform_list_s3_keys. repeat keeps_step. Qed.

Lemma keeps_download (intent : DownloadS3Key.t) :
  keeps_snapshots (_perform_download_s3_key intent).
Proof. unfold _perform_download_s3_key. repeat keeps_step. Qed.

Lemma keeps_upload (intent : UploadToS3.t) :
  keeps_snapshots (_perform_upload_s3_key intent).
Proof. unfold _perform_upload_s3_key. repeat keeps_step. Qed.

Lemma keeps_sync_perform (secure_enough_string module_file : string)
    (intent : Intent) :
  keeps_snapshots (sync_perform secure_enough_string module_file intent).
Proof.
  pose proof keeps_list. pose proof keeps_download. pose proof keeps_upload.
  destruct intent; unfold sync_perform;
    unfold perform_download_s3_key_recursively,
      perform_upload_s3_key_recursively, perform_read_s3_key,
      Effect_ListS3Keys, Effect_DownloadS3Key, Effect_UploadToS3,
      _perform_update_s3_routing_rules, _perform_update_s3_error_page,
      _perform_create_cloudfront_invalidation, _perform_delete_s3_keys,
      _perform_copy_s3_keys;
    cbn [get_dispatcher dispatch_ListS3Keys dispatch_DownloadS3Key
         dispatch_UploadToS3];
    repeat keeps_step; auto.
Qed.

(** C2. Whatever intent the fake performs, a reference to a snapshot that
    was held before still refers to the same snapshot afterwards, with the
    same routing rules, buckets, error keys and invalidations; this holds
    for [initial_state], which the performers never assign.  [state] is
    either the reference it was or a reference to a snapshot made by the
    performer, and it is the latter whenever the state has changed. *)
Theorem C2_snapshots_immutable (secure_enough_string module_file : string)
    (intent : Intent) (w : World) (held : nat) :
  held < length (snapshots (aws w)) →
  let w' := (sync_perform secure_enough_string module_file intent w).2 in
  snapshots (aws w') !! held = snapshots (aws w) !! held
  ∧ routing_rules (snapshot_at (aws w') held)
    = routing_rules (snapshot_at (aws w) held)
  ∧ s3_buckets (snapshot_at (aws w') held)
    = s3_buckets (snapshot_at (aws w) held)
  ∧ error_key (snapshot_at (aws w') held)
    = error_key (snapshot_at (aws w) held)
  ∧ cloudfront_invalidations (snapshot_at (aws w') held)
    = cloudfront_invalidations (snapshot_at (aws w) held)
  ∧ initial_state (aws w') = initial_state (aws w)
  ∧ (state (aws w') = state (aws w)
     ∨ length (snapshots (aws w)) ≤ state (aws w')
       ∧ state (aws w') < length (snapshots (aws w')))
  ∧ (current w' ≠ current w → length (snapshots (aws w)) ≤ state (aws w')).
Proof.
  intros Hheld. cbv zeta.
  pose proof (keeps_sync_perform secure_enough_string module_file intent w)
    as Hgrown.
  set (w' := (sync_perform secure_enough_string module_file intent w).2) in *.
  pose proof (grown_lookup w w' held Hgrown Hheld) as Hlookup.
  assert (Hsnap : snapshot_at (aws w') held = snapshot_at (aws w) held)
    by (unfold snapshot_at; rewrite Hlookup; reflexivity).
  rewrite Hsnap. repeat (split; [done |]).
  destruct Hgrown as (new & Hs & Hi & Hst).
  split; [exact Hi |].
  assert (Hlen : length (snapshots (aws w'))
                 = length (snapshots (aws w)) + length new)
    by (rewrite Hs; apply length_app).
  destruct Hst as [[-> Hst] | [Hne Hst]].
  - split; [left; exact Hst |]. intros Hchanged. exfalso. apply Hchanged.
    unfold current, snapshot_at. rewrite Hst, Hs, app_nil_r. reflexivity.
  - assert (0 < length new) by (destruct new; [done | simpl; lia]).
    split; [right |]; lia.
Qed.

(** The snapshot held before a [DeleteS3Keys] still has the key. *)
Lemma C2_snapshots_immutable_witness :
  let w := world_of {["docs" := {["a.html" := Unicode "<html/>"]}]} ∅ in
  let w' :=
    (sync_perform "" ""
       (DeleteS3KeysIntent
          {| DeleteS3Keys.bucket := "docs"; DeleteS3Keys.prefix := "";
             DeleteS3Keys.keys := ["a.html"] |}) w).2 in
  s3_buckets (snapshot_at (aws w') 0)
  = s3_buckets (snapshot_at (aws w) 0)
  ∧ stored (snapshot_at (aws w') (initial_state (aws w'))) "docs" "a.html"
    = Some (Unicode "<html/>")
  ∧ stored (current w') "docs" "a.html" = None.
Proof.
  cbv zeta. split; [| split].
  - apply (C2_snapshots_immutable "" ""
             (DeleteS3KeysIntent
                {| DeleteS3Keys.bucket := "docs"; DeleteS3Keys.prefix := "";
                   DeleteS3Keys.keys := ["a.html"] |})
             (world_of {["docs" := {["a.html" := Unicode "<html/>"]}]} ∅) 0).
    simpl. lia.
  - vm_compute. reflexivity.
  - vm_compute. reflexivity.
Defined.

(** ** Suffixes and the table of content types *)

Lemma length_app (a b : string) :
  String.length (a +:+ b) = String.length a + String.length b.
Proof. induction a as [|c a IH]; [reflexivity |]. rewrite app_cons. simpl. lia. Qed.

Lemma slice_from_split (n : nat) (s : string) :
  n ≤ String.length s →
  ∃ pre, s = pre +:+ Py.slice_from n s ∧ String.length pre = n.
Proof.
  revert s. induction n as [|n IH]; intros s Hn.
  - exists "". done.
  - destruct s as [|c s]; simpl in Hn; [lia |].
    destruct (IH s) as (pre & Hs & Hlen); [lia |].
    exists (String c pre). rewrite app_cons. simpl. split; congruence.
Qed.

Lemma endswith_iff (s suffix : string) :
  Py.endswith s suffix = true ↔ ∃ pre, s = pre +:+ suffix.
Proof.
  unfold Py.endswith. rewrite andb_true_iff, Nat.leb_le, String.eqb_eq. split.
  - intros [Hlen Hslice].
    destruct (slice_from_split (String.length s - String.length suffix) s)
      as (pre & Hs & _); [lia |].
    exists pre. congruence.
  - intros [pre ->]. rewrite length_app. split; [lia |].
    replace (String.length pre + String.length suffix - String.length suffix)
      with (String.length pre) by lia.
    apply slice_from_app.
Qed.

Lemma suffix_of_longer (p1 e1 p2 e2 : string) :
  p1 +:+ e1 = p2 +:+ e2 → String.length e1 ≤ String.length e2 →
  ∃ q, e2 = q +:+ e1.
Proof.
  revert p1. induction p2 as [|c p2 IH]; intros p1 Heq Hlen.
  - exists p1. symmetry. exact Heq.
  - destruct p1 as [|c1 p1].
    + exfalso. apply (f_equal String.length) in Heq.
      change (String.length e1 = S (String.length (p2 +:+ e2))) in Heq.
      rewrite length_app in Heq. lia.
    + rewrite !app_cons in Heq. injection Heq as _ Heq. apply (IH p1 Heq Hlen).
Qed.

Lemma endswith_both (key e1 e2 : string) :
  Py.endswith key e1 = true → Py.endswith key e2 = true →
  Py.endswith e2 e1 = true ∨ Py.endswith e1 e2 = true.
Proof.
  intros [p1 H1]%endswith_iff [p2 H2]%endswith_iff.
  destruct (decide (String.length e1 ≤ String.length e2)) as [Hle|Hgt].
  - left. apply endswith_iff. apply (suffix_of_longer p1 e1 p2 e2); congruence.
  - right. apply endswith_iff.
    apply (suffix_of_longer p2 e2 p1 e1); [congruence | lia].
Qed.

Lemma unambiguous_items (table : list (string * string))
    (key : string) (item1 item2 : string * string) :
  unambiguous table = true →
  item1 ∈ table → item2 ∈ table →
  Py.endswith key item1.1 = true → Py.endswith key item2.1 = true →
  item1 = item2.
Proof.
  unfold unambiguous. rewrite forallb_forall.
  intros Htable Hin1 Hin2 H1 H2.
  apply list_elem_of_In in Hin1, Hin2.
  pose proof (Htable item1 Hin1) as H12. rewrite forallb_forall in H12.
  pose proof (Htable item2 Hin2) as H21. rewrite forallb_forall in H21.
  specialize (H12 item2 Hin2). specialize (H21 item1 Hin1).
  destruct item1 as [e1 c1], item2 as [e2 c2]. simpl in *.
  destruct (endswith_both key e1 e2 H1 H2) as [H | H].
  - rewrite H in H12. simpl in H12.
    apply andb_true_iff in H12 as [?%String.eqb_eq ?%String.eqb_eq]. congruence.
  - rewrite H in H21. simpl in H21.
    apply andb_true_iff in H21 as [?%String.eqb_eq ?%String.eqb_eq]. congruence.
Qed.

(** In a table where no two entries can end the same key, the first match
    is the only match, wherever it stands. *)
Lemma first_match_unambiguous (table : list (string * string))
    (key : string) (item : string * string) :
  unambiguous table = true →
  item ∈ table → Py.endswith key item.1 = true →
  first_match table key = Some item.
Proof.
  intros Htable Hin Hends. unfold first_match.
  destruct (find (λ item, Py.endswith key item.1) table) as [found|] eqn:Hfind.
  - apply find_some in Hfind as [Hfound Hmatch].
    apply list_elem_of_In in Hfound. f_equal.
    apply (unambiguous_items table key found item); assumption.
  - apply list_elem_of_In in Hin.
    pose proof (find_none _ _ Hfind item Hin) as Hno. simpl in Hno. congruence.
Qed.

Lemma unambiguous_Permutation (table table' : list (string * string)) :
  table ≡ₚ table' → unambiguous table = true → unambiguous table' = true.
Proof.
  intros Hperm. unfold unambiguous. rewrite !forallb_forall.
  intros H item1 Hin1. rewrite forallb_forall. intros item2 Hin2.
  assert (Hin1' : In item1 table).
  { apply list_elem_of_In. rewrite Hperm. apply list_elem_of_In, Hin1. }
  assert (Hin2' : In item2 table).
  { apply list_elem_of_In. rewrite Hperm. apply list_elem_of_In, Hin2. }
  specialize (H item1 Hin1'). rewrite forallb_forall in H. apply H, Hin2'.
Qed.

(** The order in which the dictionary yields its items does not matter to
    the loop that looks for the extension of a key. *)
Lemma table_order_irrelevant (items : list (string * string)) (key : string) :
  items ≡ₚ EXTENSION_MIME_TYPES →
  first_match items key = first_match EXTENSION_MIME_TYPES key.
Proof.
  intros Hperm.
  assert (Htable : unambiguous EXTENSION_MIME_TYPES = true)
    by (vm_compute; reflexivity).
  assert (Hitems : unambiguous items = true)
    by (apply (unambiguous_Permutation EXTENSION_MIME_TYPES); done).
  destruct (first_match EXTENSION_MIME_TYPES key) as [item|] eqn:Hfirst.
  - unfold first_match in Hfirst. apply find_some in Hfirst as [Hin Hends].
    apply first_match_unambiguous; [done | | done].
    rewrite Hperm. apply list_elem_of_In, Hin.
  - unfold first_match in *.
    destruct (find _ items) as [found|] eqn:Hfind; [| reflexivity].
    apply find_some in Hfind as [Hin Hends].
    assert (Hin' : In found EXTENSION_MIME_TYPES).
    { apply list_elem_of_In. rewrite <- Hperm. apply list_elem_of_In, Hin. }
    pose proof (find_none _ _ Hfirst found Hin') as Hno. simpl in Hno.
    congruence.
Qed.

Lemma destination_metadata_match (key extension content_type : string)
    (metadata : gmap string string) :
  (extension, content_type) ∈ EXTENSION_MIME_TYPES →
  Py.endswith key extension = true →
  destination_metadata key metadata = <["Content-Type" := content_type]> metadata.
Proof.
  intros Hin Hends. unfold destination_metadata.
  rewrite (first_match_unambiguous EXTENSION_MIME_TYPES key
             (extension, content_type)); [reflexivity | | done | done].
  vm_compute. reflexivity.
Qed.

Lemma destination_metadata_no_match (key : string)
    (metadata : gmap string string) :
  (∀ item, item ∈ EXTENSION_MIME_TYPES → Py.endswith key item.1 = false) →
  destination_metadata key metadata = metadata.
Proof.
  intros Hno. unfold destination_metadata, first_match.
  destruct (find _ EXTENSION_MIME_TYPES) as [found|] eqn:Hfind; [| reflexivity].
  apply find_some in Hfind as [Hin Hends]. apply list_elem_of_In in Hin.
  rewrite (Hno found Hin) in Hends. discriminate.
Qed.

(** ** Copy *)

Lemma stored_value_other (b k b' k' : string) (v : Content)
    (s : FakeAWSState) :
  ¬ (b' = b ∧ k' = k) →
  stored (transform_s3_buckets b k (value v) s) b' k' = stored s b' k'.
Proof.
  intros Hne. unfold stored, transform_s3_buckets, transform_keys.
  cbn [s3_buckets].
  destruct (decide (b' = b)) as [->|Hb].
  - destruct (s3_buckets s !! b) as [inner|] eqn:Hinner;
      rewrite lookup_insert_eq; simpl;
      rewrite lookup_insert_ne by (intros ->; apply Hne; done);
      [reflexivity | apply lookup_empty].
  - destruct (s3_buckets s !! b) as [inner|] eqn:Hinner;
      rewrite lookup_insert_ne by congruence; reflexivity.
Qed.

(** The loop of [_perform_copy_s3_keys], over a source bucket that has every
    key. *)
Lemma run_fake_copy_loop (source : gmap string Content)
    (source_prefix destination_bucket destination_prefix : string)
    (keys : list string) (w : World) :
  (∀ key, key ∈ keys → is_Some (source !! (source_prefix +:+ key))) →
  ∃ w',
    for_each keys (λ key,
      s ← get_state;
      content ← getitem source (source_prefix +:+ key);
      set_state (transform_s3_buckets destination_bucket
                   (destination_prefix +:+ key) (value content) s)) w
    = (inr tt, w')
    ∧ (∀ key, key ∈ keys →
         stored (current w') destination_bucket (destination_prefix +:+ key)
         = source !! (source_prefix +:+ key))
    ∧ (∀ b k, ¬ (b = destination_bucket
                 ∧ k ∈ (λ key, destination_prefix +:+ key) <$> keys) →
         stored (current w') b k = stored (current w) b k)
    ∧ filesystem w' = filesystem w.
Proof.
  revert w. induction keys as [|key keys IH]; intros w Hall.
  - exists w. split; [reflexivity |]. split; [| done].
    intros key Hin. inversion Hin.
  - destruct (Hall key) as [content Hcontent]; [by left |].
    set (w1 := (set_state
                  (transform_s3_buckets destination_bucket
                     (destination_prefix +:+ key) (value content)
                     (current w)) w).2).
    destruct (IH w1) as (w' & Hrun & Hkeys & Hframe & Hfs).
    { intros key' Hin. apply Hall. by right. }
    exists w'. split; [| split; [| split]].
    + simpl. unfold mbind at 1, M_bind. unfold mbind at 1, M_bind.
      unfold get_state at 1. unfold mbind at 1, M_bind.
      unfold getitem at 1. rewrite Hcontent. simpl. exact Hrun.
    + intros key' Hin.
      destruct (decide (key' ∈ keys)) as [Hin'|Hnotin]; [by apply Hkeys |].
      apply elem_of_cons in Hin as [-> | Hin]; [| done].
      rewrite Hframe.
      * unfold w1. rewrite current_set_state, stored_value. by symmetry.
      * intros [_ Hk]. apply list_elem_of_fmap in Hk as (key' & Heq & Hin').
        apply (inj (String.app destination_prefix)) in Heq. congruence.
    + intros b k Hne. rewrite Hframe.
      * unfold w1. rewrite current_set_state. apply stored_value_other.
        intros [-> ->]. apply Hne. split; [done |]. rewrite fmap_cons. by left.
      * intros [-> Hk]. apply Hne. split; [done |]. rewrite fmap_cons.
        by right.
    + exact Hfs.
Qed.

Lemma run_copy (w : World) (dst_bucket dst_key : string)
    (source_key : boto.Key) (metadata : gmap string string)
    (bucket : gmap string boto.Key) :
  s3 w !! dst_bucket = Some bucket →
  copy source_key dst_bucket dst_key metadata w
  = (inr tt,
     with_s3 (<[dst_bucket :=
                  <[dst_key := {| boto.contents := boto.contents source_key;
                                  boto.metadata := metadata |}]> bucket]>
                (s3 w)) w).
Proof. intros H. unfold copy. rewrite H. reflexivity. Qed.

Lemma object_with_s3_insert (w : World) (dst_bucket dst_key b k : string)
    (o : boto.Key) (bucket : gmap string boto.Key) :
  s3 w !! dst_bucket = Some bucket →
  object (with_s3 (<[dst_bucket := <[dst_key := o]> bucket]> (s3 w)) w) b k
  = if decide (b = dst_bucket ∧ k = dst_key) then Some o else object w b k.
Proof.
  intros Hb. unfold object, with_s3. cbn [s3].
  destruct (decide (b = dst_bucket)) as [->|Hne].
  - rewrite lookup_insert_eq, Hb. simpl.
    destruct (decide (k = dst_key)) as [->|Hk].
    + rewrite decide_True by done. apply lookup_insert_eq.
    + rewrite decide_False by (intros [_ ?]; done).
      apply lookup_insert_ne. congruence.
  - rewrite lookup_insert_ne by congruence.
    rewrite decide_False by (intros [? _]; done). reflexivity.
Qed.

(** The loop of [perform_copy_s3_keys], in a service that has the
    destination bucket and every source key. *)
Lemma run_real_copy_loop
    (source_bucket source_prefix destination_bucket destination_prefix : string)
    (keys : list string) (w : World) :
  is_Some (s3 w !! destination_bucket) →
  (∀ key, key ∈ keys →
     is_Some (object w source_bucket (source_prefix +:+ key))) →
  ∃ w',
    for_each keys (λ key,
      source_key ← get_key source_bucket (source_prefix +:+ key);
      match source_key with
      | None => raise AttributeError
      | Some source_key =>
          copy source_key destination_bucket (destination_prefix +:+ key)
            (destination_metadata key (boto.metadata source_key))
      end) w
    = (inr tt, w')
    ∧ (∀ key, key ∈ keys →
         ∃ source_key,
           object w' destination_bucket (destination_prefix +:+ key)
           = Some (copied key source_key)
           ∧ (source_bucket ≠ destination_bucket →
              object w source_bucket (source_prefix +:+ key)
              = Some source_key))
    ∧ (∀ b k, ¬ (b = destination_bucket
                 ∧ k ∈ (λ key, destination_prefix +:+ key) <$> keys) →
         object w' b k = object w b k)
    ∧ aws w' = aws w ∧ filesystem w' = filesystem w.
Proof.
  revert w. induction keys as [|key keys IH]; intros w Hdst Hall.
  - exists w. split; [reflexivity |]. split; [| done].
    intros key Hin. inversion Hin.
  - destruct (Hall key) as [source_key Hsource]; [by left |].
    destruct Hdst as [bucket Hbucket].
    set (w1 := with_s3
                 (<[destination_bucket :=
                      <[destination_prefix +:+ key
                          := copied key source_key]> bucket]> (s3 w)) w).
    assert (Hobj : ∀ b k,
               object w1 b k
               = if decide (b = destination_bucket
                            ∧ k = destination_prefix +:+ key)
                 then Some (copied key source_key) else object w b k)
      by (intros b k; apply object_with_s3_insert, Hbucket).
    destruct (IH w1) as (w' & Hrun & Hkeys & Hframe & Haws & Hfs).
    { unfold w1, with_s3. cbn [s3]. rewrite lookup_insert_eq. eauto. }
    { intros key' Hin. rewrite Hobj. case_decide; [eauto |].
      apply Hall. by right. }
    exists w'. split; [| split; [| split]].
    + simpl. unfold mbind at 1, M_bind. unfold mbind at 1, M_bind.
      unfold get_key at 1. fold (object w source_bucket (source_prefix +:+ key)).
      rewrite Hsource.
      rewrite (run_copy w _ _ _ _ bucket Hbucket). exact Hrun.
    + intros key' Hin.
      destruct (decide (key' ∈ keys)) as [Hin'|Hnotin].
      * destruct (Hkeys key' Hin') as (source_key' & Hcopied & Hinitial).
        exists source_key'. split; [exact Hcopied |].
        intros Hne. rewrite <- (Hinitial Hne). rewrite Hobj.
        rewrite decide_False by (intros [? _]; done). reflexivity.
      * apply elem_of_cons in Hin as [-> | Hin]; [| done].
        exists source_key. split; [| done].
        rewrite Hframe.
        -- rewrite Hobj. rewrite decide_True; done.
        -- intros [_ Hk]. apply list_elem_of_fmap in Hk as (key' & Heq & Hin').
           apply (inj (String.app destination_prefix)) in Heq. congruence.
    + intros b k Hne. rewrite Hframe.
      * rewrite Hobj. rewrite decide_False; [reflexivity |].
        intros [-> ->]. apply Hne. split; [done |]. rewrite fmap_cons. by left.
      * intros [-> Hk]. apply Hne. split; [done |]. rewrite fmap_cons.
        by right.
    + split; [rewrite Haws | rewrite Hfs]; reflexivity.
Qed.

Lemma table_as_specified :
  list_to_map EXTENSION_MIME_TYPES = specified_mime_table
  ∧ length EXTENSION_MIME_TYPES = 13
  ∧ NoDup (EXTENSION_MIME_TYPES.*1).
Proof.
  split; [| split].
  - vm_compute. reflexivity.
  - reflexivity.
  - apply (bool_decide_unpack (NoDup (EXTENSION_MIME_TYPES.*1))).
    vm_compute. exact I.
Qed.

(** C4. Where the source bucket has every key, the fake [CopyS3Keys] leaves
    under every destination key the very value that the source bucket had,
    content type included and never changed.  The real [CopyS3Keys] leaves
    under every destination key an object with the contents of a source
    object and that object's metadata, in which [Content-Type] is replaced by
    the content type of the entry of [EXTENSION_MIME_TYPES] whose extension
    ends the key ([text/css] for [.css]) and which is left as it was when no
    extension does.  The table is the one of the specification, thirteen
    entries with distinct extensions, and the order of its items does not
    matter. *)
Theorem C4_copy_keys (w : World) (intent : CopyS3Keys.t)
    (source : gmap string Content) :
  let source_bucket := CopyS3Keys.source_bucket intent in
  let source_prefix := CopyS3Keys.source_prefix intent in
  let destination_bucket := CopyS3Keys.destination_bucket intent in
  let destination_prefix := CopyS3Keys.destination_prefix intent in
  let keys := CopyS3Keys.keys intent in
  s3_buckets (current w) !! source_bucket = Some source →
  (∀ key, key ∈ keys → is_Some (source !! (source_prefix +:+ key))) →
  is_Some (s3 w !! source_bucket) →
  is_Some (s3 w !! destination_bucket) →
  (∀ key, key ∈ keys →
     is_Some (object w source_bucket (source_prefix +:+ key))) →
  let fake := _perform_copy_s3_keys intent w in
  let real := perform_copy_s3_keys intent w in
  (fake.1 = inr tt
   ∧ ∀ key, key ∈ keys →
       stored (current fake.2) destination_bucket (destination_prefix +:+ key)
       = source !! (source_prefix +:+ key))
  ∧ (real.1 = inr tt
     ∧ ∀ key, key ∈ keys →
         ∃ source_key,
           object real.2 destination_bucket (destination_prefix +:+ key)
           = Some {| boto.contents := boto.contents source_key;
                     boto.metadata :=
                       destination_metadata key (boto.metadata source_key) |}
           ∧ (source_bucket ≠ destination_bucket →
              object w source_bucket (source_prefix +:+ key)
              = Some source_key)
           ∧ (∀ extension content_type,
                (extension, content_type) ∈ EXTENSION_MIME_TYPES →
                Py.endswith key extension = true →
                destination_metadata key (boto.metadata source_key)
                = <["Content-Type" := content_type]>
                    (boto.metadata source_key))
           ∧ (Py.endswith key ".css" = true →
              destination_metadata key (boto.metadata source_key)
                !! "Content-Type" = Some "text/css")
           ∧ ((∀ item, item ∈ EXTENSION_MIME_TYPES →
                 Py.endswith key item.1 = false) →
              destination_metadata key (boto.metadata source_key)
              = boto.metadata source_key))
  ∧ (list_to_map EXTENSION_MIME_TYPES = specified_mime_table
     ∧ length EXTENSION_MIME_TYPES = 13
     ∧ NoDup (EXTENSION_MIME_TYPES.*1)
     ∧ ∀ items key, items ≡ₚ EXTENSION_MIME_TYPES →
         first_match items key = first_match EXTENSION_MIME_TYPES key).
Proof.
  cbv zeta. intros Hsource Hall [remote Hremote] Hdst Hobjects.
  split; [| split].
  - destruct (run_fake_copy_loop source (CopyS3Keys.source_prefix intent)
                (CopyS3Keys.destination_bucket intent)
                (CopyS3Keys.destination_prefix intent)
                (CopyS3Keys.keys intent) w Hall)
      as (w' & Hrun & Hkeys & _).
    assert (Hfake : _perform_copy_s3_keys intent w = (inr tt, w')).
    { rewrite <- Hrun.
      unfold _perform_copy_s3_keys, mbind at 1, M_bind, get_state at 1.
      unfold mbind at 1, M_bind, getitem at 1. rewrite Hsource. reflexivity. }
    rewrite Hfake. split; [reflexivity | exact Hkeys].
  - destruct (run_real_copy_loop (CopyS3Keys.source_bucket intent)
                (CopyS3Keys.source_prefix intent)
                (CopyS3Keys.destination_bucket intent)
                (CopyS3Keys.destination_prefix intent)
                (CopyS3Keys.keys intent) w Hdst Hobjects)
      as (w' & Hrun & Hkeys & _).
    assert (Hreal : perform_copy_s3_keys intent w = (inr tt, w')).
    { rewrite <- Hrun.
      unfold perform_copy_s3_keys, mbind at 1, M_bind, get_bucket.
      rewrite Hremote. reflexivity. }
    rewrite Hreal. split; [reflexivity |].
    intros key Hin. destruct (Hkeys key Hin) as (source_key & Hcopied & Hinit).
    exists source_key. split; [exact Hcopied |]. split; [exact Hinit |].
    split; [| split].
    + intros extension content_type Htable Hends.
      apply (destination_metadata_match key extension); assumption.
    + intros Hcss.
      rewrite (destination_metadata_match key ".css" "text/css");
        [apply lookup_insert_eq | | exact Hcss].
      apply list_elem_of_In. vm_compute. tauto.
    + apply destination_metadata_no_match.
  - destruct table_as_specified as (Hmap & Hlen & Hnodup).
    split; [exact Hmap |]. split; [exact Hlen |]. split; [exact Hnodup |].
    intros items key. apply table_order_irrelevant.
Qed.

(** Copying [s.css] from bucket [staging] to bucket [docs], in the fake and
    in the service. *)
Lemma C4_copy_keys_witness :
  let intent :=
    {| CopyS3Keys.source_bucket := "staging"; CopyS3Keys.source_prefix := "";
       CopyS3Keys.destination_bucket := "docs";
       CopyS3Keys.destination_prefix := "en/";
       CopyS3Keys.keys := ["s.css"] |} in
  let w :=
    with_s3 {["staging" := {["s.css" := {| boto.contents := "a{}";
                                           boto.metadata := ∅ |}]};
              "docs" := ∅]}
      (world_of {["staging" := {["s.css" := ContentTypeUnicode "a{}" "x/y"]}]}
         ∅) in
  stored (current (_perform_copy_s3_keys intent w).2) "docs" "en/s.css"
  = Some (ContentTypeUnicode "a{}" "x/y")
  ∧ object (perform_copy_s3_keys intent w).2 "docs" "en/s.css"
    = Some {| boto.contents := "a{}";
              boto.metadata := {["Content-Type" := "text/css"]} |}.
Proof.
  cbv zeta.
  pose proof (C4_copy_keys
    (with_s3 {["staging" := {["s.css" := {| boto.contents := "a{}";
                                            boto.metadata := ∅ |}]};
               "docs" := ∅]}
       (world_of {["staging" := {["s.css" := ContentTypeUnicode "a{}" "x/y"]}]}
          ∅))
    {| CopyS3Keys.source_bucket := "staging"; CopyS3Keys.source_prefix := "";
       CopyS3Keys.destination_bucket := "docs";
       CopyS3Keys.destination_prefix := "en/";
       CopyS3Keys.keys := ["s.css"] |}
    {["s.css" := ContentTypeUnicode "a{}" "x/y"]}) as H.
  cbv zeta in H.
  destruct H as ((_ & Hfake) & _ & _).
  - reflexivity.
  - intros key Hin. apply list_elem_of_singleton in Hin as ->.
    vm_compute. eauto.
  - vm_compute. eauto.
  - vm_compute. eauto.
  - intros key Hin. apply list_elem_of_singleton in Hin as ->.
    vm_compute. eauto.
  - split.
    + refine (eq_trans (Hfake "s.css" _) _);
        [apply list_elem_of_singleton |]; reflexivity.
    + vm_compute. reflexivity.
Defined.

(** ** Recursive upload *)

Lemma run_preauthChild (self path : string) (w : World) :
  preauthChild self path w
  = (if Py.startswith (resolved (filesystem w) self path) self
     then inr (resolved (filesystem w) self path)
     else inl (InsecurePath (resolved (filesystem w) self path)), w).
Proof.
  unfold preauthChild, resolved. destruct (Py.startswith _ _); reflexivity.
Qed.

Lemma upload_recursively_turns (dispatcher : TypeDispatcher)
    (intent : UploadToS3Recursively.t) :
  perform_upload_s3_key_recursively dispatcher intent
  = for_each (elements (UploadToS3Recursively.files intent))
      (upload_turn dispatcher intent).
Proof. reflexivity. Qed.

Lemma for_each_cons {A} (x : A) (l : list A) (body : A → M unit)
    (w w1 : World) :
  body x w = (inr tt, w1) → for_each (x :: l) body w = for_each l body w1.
Proof. intros H. simpl. unfold mbind, M_bind. rewrite H. reflexivity. Qed.

Lemma for_each_cons_raise {A} (x : A) (l : list A) (body : A → M unit)
    (w w1 : World) (e : Exn) :
  body x w = (inl e, w1) → for_each (x :: l) body w = (inl e, w1).
Proof. intros H. simpl. unfold mbind, M_bind. rewrite H. reflexivity. Qed.

Lemma run_upload_turn_file (intent : UploadToS3Recursively.t)
    (child content : string) (w : World) :
  let path := resolved (filesystem w)
                (UploadToS3Recursively.source_path intent) child in
  Py.startswith path (UploadToS3Recursively.source_path intent) = true →
  files (filesystem w) !! path = Some content →
  upload_turn get_dispatcher intent child w
  = (inr tt,
     (set_state
        (transform_s3_buckets (UploadToS3Recursively.target_bucket intent)
           (UploadToS3Recursively.target_key intent +:+ "/" +:+ child)
           (value (Unicode content)) (current w))
        (record (UploadToS3Intent (upload_of intent (filesystem w) child))
           w).2).2).
Proof.
  intros path Hchild Hfile. unfold upload_turn, mbind at 1, M_bind.
  rewrite run_preauthChild. fold path. rewrite Hchild.
  unfold mbind at 1, M_bind, isfile. rewrite Hfile.
  rewrite bool_decide_eq_true_2 by eauto.
  unfold Effect_UploadToS3, mbind at 1, M_bind.
  cbn [dispatch_UploadToS3 get_dispatcher].
  change (record ?i w) with (inr tt : Exn + unit, (record i w).2).
  cbv iota.
  rewrite (run_upload_s3_key _ _ content) by exact Hfile. reflexivity.
Qed.

Lemma run_upload_turn_skip (intent : UploadToS3Recursively.t)
    (child : string) (w : World) :
  let path := resolved (filesystem w)
                (UploadToS3Recursively.source_path intent) child in
  Py.startswith path (UploadToS3Recursively.source_path intent) = true →
  files (filesystem w) !! path = None →
  upload_turn get_dispatcher intent child w = (inr tt, w).
Proof.
  intros path Hchild Hfile. unfold upload_turn, mbind at 1, M_bind.
  rewrite run_preauthChild. fold path. rewrite Hchild.
  unfold mbind at 1, M_bind, isfile. rewrite Hfile.
  rewrite bool_decide_eq_false_2; [reflexivity |]. intros [? ?]. discriminate.
Qed.

Lemma run_upload_turn_insecure (intent : UploadToS3Recursively.t)
    (child : string) (w : World) :
  let path := resolved (filesystem w)
                (UploadToS3Recursively.source_path intent) child in
  Py.startswith path (UploadToS3Recursively.source_path intent) = false →
  upload_turn get_dispatcher intent child w = (inl (InsecurePath path), w).
Proof.
  intros path Hchild. unfold upload_turn, mbind at 1, M_bind.
  rewrite run_preauthChild. fold path. rewrite Hchild. reflexivity.
Qed.

Lemma run_upload_loop (intent : UploadToS3Recursively.t)
    (children : list string) (w : World) :
  let source_path := UploadToS3Recursively.source_path intent in
  let bucket := UploadToS3Recursively.target_bucket intent in
  let target child := UploadToS3Recursively.target_key intent +:+ "/" +:+ child in
  (∀ child, child ∈ children →
     Py.startswith (resolved (filesystem w) source_path child) source_path
     = true) →
  ∃ w',
    for_each children (upload_turn get_dispatcher intent) w = (inr tt, w')
    ∧ performed w'
      = performed w
        ++ (UploadToS3Intent ∘ upload_of intent (filesystem w)
            <$> filter (λ child,
                          is_Some (files (filesystem w)
                                   !! resolved (filesystem w) source_path
                                        child))
                  children)
    ∧ filesystem w' = filesystem w
    ∧ (∀ child content,
         child ∈ children →
         files (filesystem w) !! resolved (filesystem w) source_path child
         = Some content →
         stored (current w') bucket (target child) = Some (Unicode content))
    ∧ (∀ b k, ¬ (b = bucket ∧ k ∈ target <$> children) →
         stored (current w') b k = stored (current w) b k).
Proof.
  cbv zeta. revert w. induction children as [|child children IH]; intros w Hall.
  - exists w. split; [reflexivity |]. split; [| split; [done |]].
    + rewrite filter_nil, fmap_nil, app_nil_r. reflexivity.
    + split; [| done]. intros child content Hin. inversion Hin.
  - set (sp := UploadToS3Recursively.source_path intent) in *.
    set (path := resolved (filesystem w) sp child).
    assert (Hchild : Py.startswith path sp = true) by (apply Hall; by left).
    destruct (files (filesystem w) !! path) as [content|] eqn:Hfile.
    + (* a regular file: one upload *)
      pose proof (run_upload_turn_file intent child content w Hchild Hfile)
        as Hturn.
      set (w1 := (set_state _ _).2) in Hturn.
      assert (Hcur1 : current w1
                      = transform_s3_buckets
                          (UploadToS3Recursively.target_bucket intent)
                          (UploadToS3Recursively.target_key intent
                           +:+ "/" +:+ child)
                          (value (Unicode content)) (current w))
        by apply current_set_state.
      assert (Hfs1 : filesystem w1 = filesystem w) by reflexivity.
      assert (Hperf1 : performed w1
                       = performed w
                         ++ [UploadToS3Intent
                               (upload_of intent (filesystem w) child)])
        by reflexivity.
      destruct (IH w1) as (w' & Hrun & Hperf & Hfs & Hkeys & Hframe).
      { intros child' Hin. rewrite Hfs1. apply Hall. by right. }
      exists w'. split; [| split; [| split; [| split]]].
      * rewrite (for_each_cons _ _ _ _ _ Hturn). exact Hrun.
      * rewrite Hperf, Hperf1, Hfs1. rewrite filter_cons.
        fold path. rewrite Hfile.
        rewrite decide_True by eauto. rewrite fmap_cons, <- app_assoc.
        reflexivity.
      * congruence.
      * intros child' content' Hin Hfile'.
        destruct (decide (child' ∈ children)) as [Hin'|Hnotin].
        -- apply Hkeys; [exact Hin' |]. rewrite Hfs1. exact Hfile'.
        -- apply elem_of_cons in Hin as [-> | Hin]; [| done].
           rewrite Hframe.
           ++ rewrite Hcur1, stored_value. fold path in Hfile'. congruence.
           ++ intros [_ Hk]. apply list_elem_of_fmap in Hk as (c' & Heq & Hc').
              apply (inj (String.app _)) in Heq.
              apply (inj (String.app _)) in Heq. congruence.
      * intros b k Hne. rewrite Hframe.
        -- rewrite Hcur1. apply stored_value_other.
           intros [-> ->]. apply Hne. split; [done |]. rewrite fmap_cons.
           by left.
        -- intros [-> Hk]. apply Hne. split; [done |]. rewrite fmap_cons.
           by right.
    + (* not a regular file: skipped *)
      pose proof (run_upload_turn_skip intent child w Hchild Hfile) as Hturn.
      destruct (IH w) as (w' & Hrun & Hperf & Hfs & Hkeys & Hframe).
      { intros child' Hin. apply Hall. by right. }
      exists w'. split; [| split; [| split; [| split]]].
      * rewrite (for_each_cons _ _ _ _ _ Hturn). exact Hrun.
      * rewrite Hperf. rewrite filter_cons. fold path. rewrite Hfile.
        rewrite decide_False; [reflexivity |]. intros [? ?]. discriminate.
      * exact Hfs.
      * intros child' content' Hin Hfile'.
        apply elem_of_cons in Hin as [-> | Hin].
        -- fold path in Hfile'. congruence.
        -- apply Hkeys; assumption.
      * intros b k Hne. apply Hframe.
        intros [-> Hk]. apply Hne. split; [done |]. rewrite fmap_cons.
        by right.
Qed.

(** Where some child does not resolve under the source path, the loop
    raises [InsecurePath]. *)
Lemma run_upload_loop_insecure (intent : UploadToS3Recursively.t)
    (children : list string) (w : World) :
  let source_path := UploadToS3Recursively.source_path intent in
  (∃ child, child ∈ children
            ∧ Py.startswith (resolved (filesystem w) source_path child)
                source_path = false) →
  ∃ path w',
    for_each children (upload_turn get_dispatcher intent) w
    = (inl (InsecurePath path), w')
    ∧ Py.startswith path source_path = false
    ∧ filesystem w' = filesystem w.
Proof.
  cbv zeta. revert w.
  induction children as [|child children IH]; intros w (bad & Hin & Hbad).
  - inversion Hin.
  - set (sp := UploadToS3Recursively.source_path intent) in *.
    set (path := resolved (filesystem w) sp child).
    destruct (Py.startswith path sp) eqn:Hchild.
    + assert (Hrest : bad ∈ children).
      { apply elem_of_cons in Hin as [-> | Hin]; [| done].
        unfold path in Hchild. congruence. }
      destruct (files (filesystem w) !! path) as [content|] eqn:Hfile.
      * pose proof (run_upload_turn_file intent child content w Hchild Hfile)
          as Hturn.
        set (w1 := (set_state _ _).2) in Hturn.
        destruct (IH w1) as (p & w' & Hrun & Hp & Hfs); [by exists bad |].
        exists p, w'. rewrite (for_each_cons _ _ _ _ _ Hturn). done.
      * pose proof (run_upload_turn_skip intent child w Hchild Hfile) as Hturn.
        destruct (IH w) as (p & w' & Hrun & Hp & Hfs); [by exists bad |].
        exists p, w'. rewrite (for_each_cons _ _ _ _ _ Hturn). done.
    + pose proof (run_upload_turn_insecure intent child w Hchild) as Hturn.
      exists path, w.
      rewrite (for_each_cons_raise _ _ _ _ _ _ Hturn). done.
Qed.

(** C9, as stated, fails: an entry that is no regular file, because its path
    lies outside the source directory and nothing is there, is not skipped;
    the operation raises [InsecurePath]. *)
Lemma C9_escaping_entry_raises :
  let w := world_of {["docs" := ∅]} {["/src/x.txt" := "x"]} in
  let intent :=
    {| UploadToS3Recursively.source_path := "/src";
       UploadToS3Recursively.target_bucket := "docs";
       UploadToS3Recursively.target_key := "en";
       UploadToS3Recursively.files := {["../y.txt"]} |} in
  files (filesystem w) !! resolved (filesystem w) "/src" "../y.txt" = None
  ∧ (perform_upload_s3_key_recursively get_dispatcher intent w).1
    = inl (InsecurePath "/y.txt").
Proof. split; vm_compute; reflexivity. Qed.

(** C9, amended.  Every relative path of the file set is resolved against
    the source path.  When every resolved path has the source path as a
    prefix, the operation succeeds: it yields one [UploadToS3] for each entry
    whose resolved path is a regular file, with the target key, a slash and
    the relative path as its key, and nothing for the other entries, so that
    the bucket has the content of each regular file under that key and is
    otherwise as before.  When some resolved path does not have the source
    path as a prefix, the operation raises [InsecurePath]. *)
Theorem C9_upload_recursively (w : World) (intent : UploadToS3Recursively.t) :
  let source_path := UploadToS3Recursively.source_path intent in
  let bucket := UploadToS3Recursively.target_bucket intent in
  let files_ := UploadToS3Recursively.files intent in
  let target child := UploadToS3Recursively.target_key intent +:+ "/" +:+ child in
  let path child := resolved (filesystem w) source_path child in
  let outcome := perform_upload_s3_key_recursively get_dispatcher intent w in
  ((∀ child, child ∈ files_ → Py.startswith (path child) source_path = true) →
   outcome.1 = inr tt
   ∧ performed outcome.2
     = performed w
       ++ ((λ child,
              UploadToS3Intent
                {| UploadToS3.source_path := source_path;
                   UploadToS3.target_bucket := bucket;
                   UploadToS3.target_key := target child;
                   UploadToS3.file := path child;
                   UploadToS3.content_type := None |})
           <$> filter (λ child, is_Some (files (filesystem w) !! path child))
                 (elements files_))
   ∧ filesystem outcome.2 = filesystem w
   ∧ (∀ child content,
        child ∈ files_ →
        files (filesystem w) !! path child = Some content →
        stored (current outcome.2) bucket (target child)
        = Some (Unicode content))
   ∧ (∀ b k, ¬ (b = bucket ∧ ∃ child, child ∈ files_ ∧ k = target child) →
        stored (current outcome.2) b k = stored (current w) b k))
  ∧ ((∃ child, child ∈ files_
               ∧ Py.startswith (path child) source_path = false) →
     ∃ escaping,
       outcome.1 = inl (InsecurePath escaping)
       ∧ Py.startswith escaping source_path = false
       ∧ filesystem outcome.2 = filesystem w).
Proof.
  cbv zeta. rewrite upload_recursively_turns. split.
  - intros Hall.
    destruct (run_upload_loop intent
                (elements (UploadToS3Recursively.files intent)) w)
      as (w' & Hrun & Hperf & Hfs & Hkeys & Hframe).
    { intros child Hin. apply Hall. apply elem_of_elements, Hin. }
    rewrite Hrun. cbn [fst snd].
    split; [reflexivity |]. split; [exact Hperf |]. split; [exact Hfs |].
    split.
    + intros child content Hin. apply Hkeys. apply elem_of_elements, Hin.
    + intros b k Hne. apply Hframe. intros [-> Hk]. apply Hne.
      split; [reflexivity |].
      apply list_elem_of_fmap in Hk as (child & -> & Hin).
      exists child. split; [apply elem_of_elements, Hin | reflexivity].
  - intros (child & Hin & Hbad).
    destruct (run_upload_loop_insecure intent
                (elements (UploadToS3Recursively.files intent)) w)
      as (escaping & w' & Hrun & Hescaping & Hfs).
    { exists child. split; [apply elem_of_elements, Hin | exact Hbad]. }
    exists escaping. rewrite Hrun. done.
Qed.

(** The scenario of the specification: of [x.txt] and [sub/y.txt] only
    [x.txt] is a regular file under the source directory. *)
Lemma C9_upload_recursively_witness :
  let w := world_of {["docs" := ∅]} {["/src/x.txt" := "x"]} in
  let intent :=
    {| UploadToS3Recursively.source_path := "/src";
       UploadToS3Recursively.target_bucket := "docs";
       UploadToS3Recursively.target_key := "en";
       UploadToS3Recursively.files := {["x.txt"; "sub/y.txt"]} |} in
  let outcome := perform_upload_s3_key_recursively get_dispatcher intent w in
  outcome.1 = inr tt
  ∧ performed outcome.2
    = [UploadToS3Intent
         {| UploadToS3.source_path := "/src";
            UploadToS3.target_bucket := "docs";
            UploadToS3.target_key := "en/x.txt";
            UploadToS3.file := "/src/x.txt";
            UploadToS3.content_type := None |}]
  ∧ stored (current outcome.2) "docs" "en/x.txt" = Some (Unicode "x")
  ∧ stored (current outcome.2) "docs" "en/sub/y.txt" = None.
Proof.
  cbv zeta.
  destruct (C9_upload_recursively
              (world_of {["docs" := ∅]} {["/src/x.txt" := "x"]})
              {| UploadToS3Recursively.source_path := "/src";
                 UploadToS3Recursively.target_bucket := "docs";
                 UploadToS3Recursively.target_key := "en";
                 UploadToS3Recursively.files := {["x.txt"; "sub/y.txt"]} |})
    as [Hall _].
  cbv zeta in Hall.
  destruct Hall as (Hok & Hperf & _ & Hkeys & _).
  - intros child Hin. apply elem_of_union in Hin as [Hin | Hin];
      apply elem_of_singleton in Hin; subst child; vm_compute; reflexivity.
  - split; [exact Hok |]. split; [| split].
    + refine (eq_trans Hperf _). vm_compute. reflexivity.
    + apply (Hkeys "x.txt" "x"); [| vm_compute; reflexivity].
      apply elem_of_union. left. apply elem_of_singleton. reflexivity.
    + vm_compute. reflexivity.
Defined.

(** ** Recursive download *)















(** A bucket with a page and a text file under [en]: only the page is
    downloaded, into a directory that is made for it. *)
Example download_recursively_scenario :
  let w := world_of {["docs" := {["en/a/b.html" := Unicode "<html/>";
                                  "en/c.txt" := Unicode "c"]}]} ∅ in
  let intent :=
    {| DownloadS3KeyRecursively.source_bucket := "docs";
       DownloadS3KeyRecursively.source_prefix := "en";
       DownloadS3KeyRecursively.target_path := "/tmp/out";
       DownloadS3KeyRecursively.filter_extensions := [".html"] |} in
  let outcome := perform_download_s3_key_recursively get_dispatcher intent w in
  outcome.1 = inr tt
  ∧ files (filesystem outcome.2) = {["/tmp/out/a/b.html" := "<html/>"]}
  ∧ "/tmp/out/a" ∈ directories (filesystem outcome.2)
  ∧ performed outcome.2
    = [ListS3KeysIntent {| ListS3Keys.bucket := "docs";
                           ListS3Keys.prefix := "en/" |};
       DownloadS3KeyIntent {| DownloadS3Key.source_bucket := "docs";
                              DownloadS3Key.source_key := "en/a/b.html";
                              DownloadS3Key.target_path :=
                                "/tmp/out/a/b.html" |}].
Proof.
  cbv zeta. split; [| split; [| split]].
  - vm_compute. reflexivity.
  - vm_compute. reflexivity.
  - apply (bool_decide_unpack (_ ∈ _)). vm_compute. exact I.
  - vm_compute. reflexivity.
Qed.

(** A key that climbs out of the target directory is refused before
    anything is written. *)
Example download_recursively_refused :
  let w := world_of {["docs" := {["en/../../etc/x.html" := Unicode "x"]}]} ∅ in
  let intent :=
    {| DownloadS3KeyRecursively.source_bucket := "docs";
       DownloadS3KeyRecursively.source_prefix := "en";
       DownloadS3KeyRecursively.target_path := "/tmp/out";
       DownloadS3KeyRecursively.filter_extensions := [".html"] |} in
  let outcome := perform_download_s3_key_recursively get_dispatcher intent w in
  outcome.1 = inl (InsecurePath "/etc/x.html")
  ∧ files (filesystem outcome.2) = ∅.
Proof. cbv zeta. split; vm_compute; reflexivity. Qed.

(** ** Reading a key *)

Lemma run_read_s3_key_found (secure_enough_string module_file : string)
    (intent : ReadS3Key.t) (w : World) (content : Content) :
  let target_file :=
    "/tmp/" +:+ secure_enough_string +:+ module_file
            +:+ ".perform_read_s3_key" in
  let download :=
    {| DownloadS3Key.source_bucket := ReadS3Key.source_bucket intent;
       DownloadS3Key.source_key := ReadS3Key.source_key intent;
       DownloadS3Key.target_path := target_file |} in
  stored (current w) (ReadS3Key.source_bucket intent)
    (ReadS3Key.source_key intent) = Some content →
  perform_read_s3_key secure_enough_string module_file get_dispatcher intent w
  = (inr (text content),
     with_filesystem (with_files (delete target_file))
       (with_filesystem (with_files <[target_file := text content]>)
          (record (DownloadS3KeyIntent download) w).2)).
Proof.
  intros target_file download Hstored. unfold stored in Hstored.
  destruct (s3_buckets (current w) !! ReadS3Key.source_bucket intent)
    as [inner|] eqn:Hb; [| discriminate].
  simpl in Hstored.
  set (wr := (record (DownloadS3KeyIntent download) w).2).
  assert (Hdown : _perform_download_s3_key download wr
                  = (inr tt,
                     with_filesystem
                       (with_files <[target_file := text content]>) wr))
    by (apply (run_download_s3_key download wr inner content); assumption).
  unfold perform_read_s3_key, try_finally. fold target_file. fold download.
  unfold Effect_DownloadS3Key.
  cbn [dispatch_DownloadS3Key get_dispatcher].
  assert (Hbody : ((record (DownloadS3KeyIntent download) ;;
                    _perform_download_s3_key download) ;;
                   getContent target_file) w
                  = (inr (text content),
                     with_filesystem
                       (with_files <[target_file := text content]>) wr)).
  { unfold mbind, M_bind.
    change (record (DownloadS3KeyIntent download) w) with (inr tt : Exn + unit, wr).
    cbv iota. rewrite Hdown. unfold getContent.
    cbn [filesystem with_filesystem with_files files].
    rewrite lookup_insert_eq. reflexivity. }
  rewrite Hbody.
  unfold mbind, M_bind, exists_. cbn [filesystem with_filesystem with_files files].
  rewrite lookup_insert_eq. rewrite bool_decide_eq_true_2 by eauto.
  cbn [orb]. unfold remove. cbn [filesystem with_filesystem with_files files].
  rewrite lookup_insert_eq. rewrite bool_decide_eq_true_2 by eauto.
  reflexivity.
Qed.

Lemma with_files_delete_absent (fs : FileSystem) (path : string) :
  files fs !! path = None → with_files (delete path) fs = fs.
Proof.
  intros H. destruct fs as [f d c]. unfold with_files. simpl in *.
  f_equal. apply delete_id, H.
Qed.

(** The [finally] block of [perform_read_s3_key]: whatever is at the path
    is removed, and nothing else is touched. *)
Lemma run_cleanup (path : string) (v : World) :
  ∃ v',
    (there ← exists_ path; if (there : bool) then remove path else mret tt) v
    = (inr tt, v')
    ∧ aws v' = aws v
    ∧ performed v' = performed v
    ∧ files (filesystem v') !! path = None
    ∧ (path ∉ directories (filesystem v) →
       filesystem v' = with_files (delete path) (filesystem v)).
Proof.
  unfold mbind, M_bind, exists_, remove.
  destruct (files (filesystem v) !! path) as [old|] eqn:Hfile.
  - rewrite bool_decide_eq_true_2 by eauto. cbn [orb].
    rewrite Hfile. rewrite bool_decide_eq_true_2 by eauto.
    eexists. split; [reflexivity |]. split; [reflexivity |].
    split; [reflexivity |]. split; [| reflexivity].
    cbn [filesystem with_filesystem with_files files]. apply lookup_delete_eq.
  - rewrite (bool_decide_eq_false_2 (is_Some None))
      by (intros [? ?]; discriminate).
    cbn [orb].
    destruct (bool_decide (path ∈ directories (filesystem v))) eqn:Hdir.
    + rewrite Hfile.
      rewrite (bool_decide_eq_false_2 (is_Some None))
        by (intros [? ?]; discriminate).
      rewrite Hdir.
      eexists. split; [reflexivity |]. split; [reflexivity |].
      split; [reflexivity |]. split.
      * cbn [filesystem with_filesystem files].
        apply map_lookup_filter_None. left. exact Hfile.
      * intros Hnot. apply bool_decide_eq_true in Hdir. contradiction.
    + exists v. split; [reflexivity |]. split; [reflexivity |].
      split; [reflexivity |]. split; [exact Hfile |].
      intros _. symmetry. apply with_files_delete_absent, Hfile.
Qed.

Lemma run_read_s3_key_missing (secure_enough_string module_file : string)
    (intent : ReadS3Key.t) (w : World) :
  let target_file :=
    "/tmp/" +:+ secure_enough_string +:+ module_file
            +:+ ".perform_read_s3_key" in
  let download :=
    {| DownloadS3Key.source_bucket := ReadS3Key.source_bucket intent;
       DownloadS3Key.source_key := ReadS3Key.source_key intent;
       DownloadS3Key.target_path := target_file |} in
  stored (current w) (ReadS3Key.source_bucket intent)
    (ReadS3Key.source_key intent) = None →
  ∃ missing w',
    perform_read_s3_key secure_enough_string module_file get_dispatcher
      intent w = (inl (KeyError missing), w')
    ∧ aws w' = aws w
    ∧ performed w' = performed w ++ [DownloadS3KeyIntent download]
    ∧ files (filesystem w') !! target_file = None
    ∧ (target_file ∉ directories (filesystem w) →
       filesystem w' = with_files (delete target_file) (filesystem w)).
Proof.
  intros target_file download Hstored.
  set (wr := (record (DownloadS3KeyIntent download) w).2).
  assert (Hdown : ∃ missing,
             _perform_download_s3_key download wr
             = (inl (KeyError missing), wr)).
  { unfold stored in Hstored.
    destruct (s3_buckets (current w) !! ReadS3Key.source_bucket intent)
      as [inner|] eqn:Hb.
    - simpl in Hstored. eexists.
      apply (run_download_s3_key_no_key download wr inner); assumption.
    - eexists. apply (run_download_s3_key_no_bucket download wr). assumption. }
  destruct Hdown as [missing Hdown]. exists missing.
  assert (Hbody : ((record (DownloadS3KeyIntent download) ;;
                    _perform_download_s3_key download) ;;
                   getContent target_file) w
                  = (inl (KeyError missing), wr)).
  { unfold mbind, M_bind.
    change (record (DownloadS3KeyIntent download) w) with (inr tt : Exn + unit, wr).
    cbv iota. rewrite Hdown. reflexivity. }
  destruct (run_cleanup target_file wr) as (w' & Hfinal & Haws & Hperf & Hgone & Hfs).
  exists w'.
  unfold perform_read_s3_key, try_finally. fold target_file. fold download.
  unfold Effect_DownloadS3Key.
  cbn [dispatch_DownloadS3Key get_dispatcher].
  rewrite Hbody, Hfinal.
  split; [reflexivity |]. split; [exact Haws |]. split; [exact Hperf |].
  split; [exact Hgone | exact Hfs].
Qed.

(** X1. [ReadS3Key] through the fake dispatcher returns exactly the text
    stored under the key, and raises [KeyError] when the bucket or the key
    is missing.  Either way no file is left at the temporary path, the
    snapshot is untouched, and, unless a directory stood at the temporary
    path, the filesystem is what it was with the temporary path removed. *)
Theorem X1_read_s3_key (secure_enough_string module_file : string)
    (intent : ReadS3Key.t) (w : World) :
  let target_file :=
    "/tmp/" +:+ secure_enough_string +:+ module_file
            +:+ ".perform_read_s3_key" in
  let outcome :=
    perform_read_s3_key secure_enough_string module_file get_dispatcher
      intent w in
  match stored (current w) (ReadS3Key.source_bucket intent)
          (ReadS3Key.source_key intent) with
  | Some content => outcome.1 = inr (text content)
  | None => ∃ missing, outcome.1 = inl (KeyError missing)
  end
  ∧ files (filesystem outcome.2) !! target_file = None
  ∧ (target_file ∉ directories (filesystem w) →
     filesystem outcome.2 = with_files (delete target_file) (filesystem w))
  ∧ aws outcome.2 = aws w.
Proof.
  cbv zeta.
  destruct (stored (current w) (ReadS3Key.source_bucket intent)
              (ReadS3Key.source_key intent)) as [content|] eqn:Hstored.
  - rewrite (run_read_s3_key_found _ _ _ _ _ Hstored). cbn [fst snd].
    split; [reflexivity |]. split; [| split; [| reflexivity]].
    + cbn [filesystem with_filesystem with_files files]. apply lookup_delete_eq.
    + intros _. cbn [filesystem with_filesystem record snd].
      unfold with_files. cbn [files directories cwd].
      rewrite delete_insert_eq. reflexivity.
  - destruct (run_read_s3_key_missing secure_enough_string module_file
                intent w Hstored)
      as (missing & w' & Hrun & Haws & _ & Hgone & Hfs).
    rewrite Hrun. cbn [fst snd]. eauto.
Qed.



(** ** Copying where something is missing *)

Lemma for_each_app {A} (l1 l2 : list A) (body : A → M unit) (w : World) :
  for_each (l1 ++ l2) body w
  = match for_each l1 body w with
    | (inr _, w1) => for_each l2 body w1
    | (inl e, w1) => (inl e, w1)
    end.
Proof.
  revert w. induction l1 as [|x l1 IH]; intros w; [reflexivity |].
  simpl. unfold mbind, M_bind.
  destruct (body x w) as [[e|[]] v]; [reflexivity | apply IH].
Qed.

Lemma run_fake_copy (intent : CopyS3Keys.t) (w : World)
    (source : gmap string Content) :
  s3_buckets (current w) !! CopyS3Keys.source_bucket intent = Some source →
  _perform_copy_s3_keys intent w
  = for_each (CopyS3Keys.keys intent) (λ key,
      s ← get_state;
      content ← getitem source (CopyS3Keys.source_prefix intent +:+ key);
      set_state (transform_s3_buckets (CopyS3Keys.destination_bucket intent)
                   (CopyS3Keys.destination_prefix intent +:+ key)
                   (value content) s)) w.
Proof.
  intros Hsource.
  unfold _perform_copy_s3_keys, mbind at 1, M_bind, get_state at 1.
  unfold mbind at 1, M_bind, getitem at 1. rewrite Hsource. reflexivity.
Qed.

(** X3. The fake [CopyS3Keys] looks the source bucket up before it looks at
    any key: without the bucket it raises [KeyError] for the bucket and
    changes nothing, even for an empty list of keys.  With the bucket, it
    raises [KeyError] at the first key that the source bucket does not have;
    the keys before it have been copied, nothing else has changed, and the
    keys after it are not looked at. *)
Theorem X3_copy_keys_missing (w : World) (intent : CopyS3Keys.t) :
  let source_prefix := CopyS3Keys.source_prefix intent in
  let destination_bucket := CopyS3Keys.destination_bucket intent in
  let destination_prefix := CopyS3Keys.destination_prefix intent in
  let outcome := _perform_copy_s3_keys intent w in
  match s3_buckets (current w) !! CopyS3Keys.source_bucket intent with
  | None => outcome = (inl (KeyError (CopyS3Keys.source_bucket intent)), w)
  | Some source =>
      ∀ copied_keys missing rest,
        CopyS3Keys.keys intent = copied_keys ++ missing :: rest →
        (∀ key, key ∈ copied_keys →
           is_Some (source !! (source_prefix +:+ key))) →
        source !! (source_prefix +:+ missing) = None →
        outcome.1 = inl (KeyError (source_prefix +:+ missing))
        ∧ (∀ key, key ∈ copied_keys →
             stored (current outcome.2) destination_bucket
               (destination_prefix +:+ key)
             = source !! (source_prefix +:+ key))
        ∧ (∀ b k,
             ¬ (b = destination_bucket
                ∧ k ∈ (λ key, destination_prefix +:+ key) <$> copied_keys) →
             stored (current outcome.2) b k = stored (current w) b k)
  end.
Proof.
  cbv zeta.
  destruct (s3_buckets (current w) !! CopyS3Keys.source_bucket intent)
    as [source|] eqn:Hsource.
  - intros copied_keys missing rest Hkeys Hall Hmissing.
    destruct (run_fake_copy_loop source (CopyS3Keys.source_prefix intent)
                (CopyS3Keys.destination_bucket intent)
                (CopyS3Keys.destination_prefix intent) copied_keys w Hall)
      as (w' & Hrun & Hcopied & Hframe & _).
    assert (Hout : _perform_copy_s3_keys intent w
                   = (inl (KeyError (CopyS3Keys.source_prefix intent
                                     +:+ missing)), w')).
    { rewrite (run_fake_copy intent w source Hsource).
      rewrite Hkeys, for_each_app, Hrun.
      apply for_each_cons_raise.
      unfold mbind, M_bind, get_state, getitem. rewrite Hmissing. reflexivity. }
    rewrite Hout. cbn [fst snd]. split; [reflexivity |].
    split; [exact Hcopied | exact Hframe].
  - unfold _perform_copy_s3_keys, mbind, M_bind, get_state, getitem.
    rewrite Hsource. reflexivity.
Qed.

Lemma X3_copy_keys_missing_witness :
  let w := world_of {["staging" := {["a.html" := Unicode "a";
                                     "c.html" := Unicode "c"]};
                      "docs" := ∅]} ∅ in
  let outcome :=
    _perform_copy_s3_keys
      {| CopyS3Keys.source_bucket := "staging"; CopyS3Keys.source_prefix := "";
         CopyS3Keys.destination_bucket := "docs";
         CopyS3Keys.destination_prefix := "en/";
         CopyS3Keys.keys := ["a.html"; "b.html"; "c.html"] |} w in
  outcome.1 = inl (KeyError "b.html")
  ∧ stored (current outcome.2) "docs" "en/a.html" = Some (Unicode "a")
  ∧ stored (current outcome.2) "docs" "en/c.html" = None.
Proof.
  cbv zeta.
  pose proof (X3_copy_keys_missing
    (world_of {["staging" := {["a.html" := Unicode "a";
                               "c.html" := Unicode "c"]};
                "docs" := ∅]} ∅)
    {| CopyS3Keys.source_bucket := "staging"; CopyS3Keys.source_prefix := "";
       CopyS3Keys.destination_bucket := "docs";
       CopyS3Keys.destination_prefix := "en/";
       CopyS3Keys.keys := ["a.html"; "b.html"; "c.html"] |}) as H.
  cbv zeta in H.
  destruct (H ["a.html"] "b.html" ["c.html"]) as (Hraise & Hcopied & Hframe).
  - reflexivity.
  - intros key Hin. apply list_elem_of_singleton in Hin as ->.
    vm_compute. eauto.
  - vm_compute. reflexivity.
  - split; [exact Hraise |]. split.
    + refine (eq_trans (Hcopied "a.html" _) _);
        [apply list_elem_of_singleton |]; reflexivity.
    + vm_compute. reflexivity.
Defined.

(** ** One key at a time *)

Lemma bucket_value_other (b k b' : string) (v : Content) (s : FakeAWSState) :
  b' ≠ b →
  s3_buckets (transform_s3_buckets b k (value v) s) !! b' = s3_buckets s !! b'.
Proof.
  intros Hne. unfold transform_s3_buckets, transform_keys. cbn [s3_buckets].
  destruct (s3_buckets s !! b); rewrite lookup_insert_ne by congruence;
    reflexivity.
Qed.


Lemma slice_from_inj (prefix k1 k2 : string) :
  Py.startswith k1 prefix = true → Py.startswith k2 prefix = true →
  Py.slice_from (String.length prefix) k1
  = Py.slice_from (String.length prefix) k2 →
  k1 = k2.
Proof.
  intros H1 H2 Heq.
  rewrite (startswith_split k1 prefix H1), (startswith_split k2 prefix H2).
  rewrite Heq. reflexivity.
Qed.

(** X5. On a bucket that the snapshot has, [ListS3Keys] returns exactly the
    names that, put after the prefix, are keys of the bucket; no two keys
    give the same name, so there are as many names as there are keys that
    start with the prefix; and the snapshot is untouched.  The prefix is a
    plain string prefix: nothing is made of slashes. *)
Theorem X5_list_keys (w : World) (intent : ListS3Keys.t)
    (inner : gmap string Content) :
  s3_buckets (current w) !! ListS3Keys.bucket intent = Some inner →
  ∃ listed,
    _perform_list_s3_keys intent w = (inr listed, w)
    ∧ (∀ name,
         name ∈ listed ↔ is_Some (inner !! (ListS3Keys.prefix intent +:+ name)))
    ∧ size listed
      = size (filter (λ key, Py.startswith key (ListS3Keys.prefix intent) = true)
                (dom inner)).
Proof.
  intros Hbucket. eexists. split; [apply (run_list_s3_keys _ _ _ Hbucket) |].
  split; [intros name; apply elem_of_listed |].
  set (matching := filter _ (dom inner)).
  unfold set_map. rewrite size_list_to_set.
  - rewrite length_fmap. reflexivity.
  - apply NoDup_fmap_2_strong; [| apply NoDup_elements].
    intros k1 k2 Hk1 Hk2 Heq.
    apply elem_of_elements, elem_of_filter in Hk1 as [Hk1 _].
    apply elem_of_elements, elem_of_filter in Hk2 as [Hk2 _].
    apply (slice_from_inj (ListS3Keys.prefix intent)); assumption.
Qed.

Lemma X5_list_keys_witness :
  ∃ listed,
    _perform_list_s3_keys
      {| ListS3Keys.bucket := "docs"; ListS3Keys.prefix := "a" |}
      (world_of {["docs" := {["a/b.html" := Unicode "1";
                              "ab.html" := Unicode "2";
                              "c.html" := Unicode "3"]}]} ∅)
    = (inr listed,
       world_of {["docs" := {["a/b.html" := Unicode "1";
                              "ab.html" := Unicode "2";
                              "c.html" := Unicode "3"]}]} ∅)
    ∧ "/b.html" ∈ listed ∧ "b.html" ∈ listed ∧ size listed = 2.
Proof.
  destruct (X5_list_keys
              (world_of {["docs" := {["a/b.html" := Unicode "1";
                                      "ab.html" := Unicode "2";
                                      "c.html" := Unicode "3"]}]} ∅)
              {| ListS3Keys.bucket := "docs"; ListS3Keys.prefix := "a" |}
              {["a/b.html" := Unicode "1"; "ab.html" := Unicode "2";
                "c.html" := Unicode "3"]})
    as (listed & Hrun & Hnames & Hsize); [vm_compute; reflexivity |].
  exists listed. split; [exact Hrun |].
  split; [apply Hnames; vm_compute; eauto |].
  split; [apply Hnames; vm_compute; eauto |].
  rewrite Hsize. vm_compute. reflexivity.
Defined.

Lemma stored_discarded_other (bucket prefix : string) (keys : list string)
    (s : FakeAWSState) (b k : string) :
  ¬ (b = bucket ∧ k ∈ (λ key, prefix +:+ key) <$> keys) →
  stored (discarded bucket prefix keys s) b k = stored s b k.
Proof.
  unfold discarded. revert s. induction keys as [|key keys IH]; intros s Hne.
  - reflexivity.
  - simpl. rewrite IH.
    + rewrite stored_discard. rewrite decide_False; [reflexivity |].
      intros [-> ->]. apply Hne. split; [done |]. rewrite fmap_cons. by left.
    + intros [-> Hk]. apply Hne. split; [done |]. rewrite fmap_cons. by right.
Qed.

(** X6. [DeleteS3Keys] on the fake removes the listed keys and nothing
    else: every other key of every bucket is as it was, no bucket is made
    and none is removed, and the filesystem is untouched.  A bucket all of
    whose keys have been deleted is still there, and lists as the empty
    set. *)
Theorem X6_delete_only_the_keys (w : World) (intent : DeleteS3Keys.t) :
  let bucket := DeleteS3Keys.bucket intent in
  let prefix := DeleteS3Keys.prefix intent in
  let keys := DeleteS3Keys.keys intent in
  let after := (_perform_delete_s3_keys intent w).2 in
  (∀ b k, ¬ (b = bucket ∧ k ∈ (λ key, prefix +:+ key) <$> keys) →
     stored (current after) b k = stored (current w) b k)
  ∧ (∀ b, is_Some (s3_buckets (current after) !! b)
          ↔ is_Some (s3_buckets (current w) !! b))
  ∧ filesystem after = filesystem w
  ∧ (∀ inner,
       s3_buckets (current w) !! bucket = Some inner →
       (∀ k, is_Some (inner !! k) → k ∈ (λ key, prefix +:+ key) <$> keys) →
       _perform_list_s3_keys
         {| ListS3Keys.bucket := bucket; ListS3Keys.prefix := "" |} after
       = (inr ∅, after)).
Proof.
  cbv zeta.
  destruct (run_delete_s3_keys intent w) as (w1 & Hrun & Hcur & Hfs).
  rewrite Hrun. cbn [snd]. rewrite Hcur.
  split; [intros b k; apply stored_discarded_other |].
  split; [intros b; apply bucket_discarded |].
  split; [exact Hfs |].
  intros inner Hinner Hall.
  destruct (proj2 (bucket_discarded (DeleteS3Keys.bucket intent)
                     (DeleteS3Keys.prefix intent) (DeleteS3Keys.keys intent)
                     (current w) (DeleteS3Keys.bucket intent)))
    as [inner1 Hinner1]; [eauto |].
  rewrite <- Hcur in Hinner1.
  rewrite (run_list_s3_keys
             {| ListS3Keys.bucket := DeleteS3Keys.bucket intent;
                ListS3Keys.prefix := "" |} w1 inner1 Hinner1).
  do 2 f_equal. apply set_eq. intros name.
  rewrite elem_of_listed. cbn [ListS3Keys.prefix].
  change ("" +:+ name) with name. split; [| set_solver].
  intros Hname. exfalso.
  assert (Hstored : stored (current w1) (DeleteS3Keys.bucket intent) name
                    = inner1 !! name)
    by (unfold stored; rewrite Hinner1; reflexivity).
  rewrite <- Hstored, Hcur in Hname.
  destruct (decide (name ∈ (λ key, DeleteS3Keys.prefix intent +:+ key)
                              <$> DeleteS3Keys.keys intent)) as [Hin|Hnotin].
  - apply list_elem_of_fmap in Hin as (key & -> & Hkey).
    rewrite stored_discarded in Hname by exact Hkey.
    destruct Hname. discriminate.
  - rewrite stored_discarded_other in Hname by (intros [_ ?]; done).
    unfold stored in Hname. rewrite Hinner in Hname. simpl in Hname.
    apply Hnotin, Hall, Hname.
Qed.

(** ** Upload, then delete *)




(** ** What each intent leaves alone *)

Lemma preserves_ret {A B} (part : World → B) (a : A) :
  preserves part (mret a : M A).
Proof. intros w. reflexivity. Qed.

Lemma preserves_raise {A B} (part : World → B) (e : Exn) :
  preserves part (raise e : M A).
Proof. intros w. reflexivity. Qed.

Lemma preserves_bind {A B C} (part : World → C) (m : M A) (f : A → M B) :
  preserves part m → (∀ a, preserves part (f a)) → preserves part (m ≫= f).
Proof.
  intros Hm Hf w. specialize (Hm w). unfold mbind, M_bind.
  destruct (m w) as [[e|a] v]; cbn [fst snd] in *; [exact Hm |].
  rewrite Hf. exact Hm.
Qed.

Lemma preserves_for_each {A B} (part : World → B) (l : list A)
    (body : A → M unit) :
  (∀ x, preserves part (body x)) → preserves part (for_each l body).
Proof.
  intros Hbody. induction l as [|x l IH]; simpl.
  - apply preserves_ret.
  - apply preserves_bind; [apply Hbody | intros _; exact IH].
Qed.

Lemma preserves_try_finally {A B} (part : World → B) (body : M A)
    (final : M unit) :
  preserves part body → preserves part final →
  preserves part (try_finally body final).
Proof.
  intros Hb Hf w. specialize (Hb w). unfold try_finally.
  destruct (body w) as [r v]; cbn [fst snd] in *. specialize (Hf v).
  destruct (final v) as [[e|[]] u]; cbn [fst snd] in *; congruence.
Qed.

Lemma preserves_getitem {A B} (part : World → B) (m : gmap string A)
    (k : string) :
  preserves part (getitem m k).
Proof.
  unfold getitem. destruct (m !! k); [apply preserves_ret | apply preserves_raise].
Qed.

Ltac preserves_primitive :=
  solve [ intros ?w;
          unfold get_state, set_state, record, exists_, isfile, getContent,
            setContent, remove, parent, makedirs, preauthChild;
          repeat case_bool_decide; repeat case_match; reflexivity ].

Ltac preserves_step :=
  first
    [ apply preserves_bind; [| intros ?]
    | apply preserves_for_each; intros ?
    | apply preserves_try_finally
    | apply preserves_ret
    | apply preserves_raise
    | apply preserves_getitem
    | preserves_primitive
    | match goal with
      | |- preserves _ (if ?b then _ else _) => destruct b
      | |- preserves _ (match ?o with _ => _ end) => destruct o
      end ].

Ltac preserves_performer :=
  unfold sync_perform, perform_download_s3_key_recursively,
    perform_upload_s3_key_recursively, perform_read_s3_key,
    Effect_ListS3Keys, Effect_DownloadS3Key, Effect_UploadToS3,
    _perform_update_s3_routing_rules, _perform_update_s3_error_page,
    _perform_create_cloudfront_invalidation, _perform_delete_s3_keys,
    _perform_copy_s3_keys, _perform_list_s3_keys, _perform_download_s3_key,
    _perform_upload_s3_key;
  cbn [get_dispatcher dispatch_ListS3Keys dispatch_DownloadS3Key
       dispatch_UploadToS3];
  repeat preserves_step.

(** The fake never touches the boto service. *)
Lemma sync_perform_s3 (secure_enough_string module_file : string)
    (intent : Intent) :
  preserves s3 (sync_perform secure_enough_string module_file intent).
Proof. destruct intent; preserves_performer. Qed.

(** The intents that only read the snapshot leave the fake as it is, store
    and references. *)
Lemma sync_perform_reads (secure_enough_string module_file : string)
    (intent : Intent) :
  match intent with
  | ListS3KeysIntent _ | DownloadS3KeyIntent _ | ReadS3KeyIntent _
  | DownloadS3KeyRecursivelyIntent _ =>
      preserves aws (sync_perform secure_enough_string module_file intent)
  | _ => True
  end.
Proof. destruct intent; try exact I; preserves_performer. Qed.

(** The intents that only change the snapshot leave the filesystem as it
    is. *)
Lemma sync_perform_filesystem (secure_enough_string module_file : string)
    (intent : Intent) :
  match intent with
  | DownloadS3KeyIntent _ | ReadS3KeyIntent _
  | DownloadS3KeyRecursivelyIntent _ => True
  | _ =>
      preserves filesystem
        (sync_perform secure_enough_string module_file intent)
  end.
Proof. destruct intent; try exact I; preserves_performer. Qed.

Lemma same_but_buckets_refl (s : FakeAWSState) : same_but_buckets s s.
Proof. done. Qed.

Lemma same_but_buckets_trans (s1 s2 s3 : FakeAWSState) :
  same_but_buckets s1 s2 → same_but_buckets s2 s3 → same_but_buckets s1 s3.
Proof. intros (? & ? & ?) (? & ? & ?). repeat split; congruence. Qed.

Lemma same_but_buckets_transform (b k : string) (c : command Content)
    (s : FakeAWSState) :
  same_but_buckets s (transform_s3_buckets b k c s).
Proof. done. Qed.

Lemma steps_preserves {A} (R : FakeAWSState → FakeAWSState → Prop) (m : M A) :
  (∀ s, R s s) → preserves aws m → steps R m.
Proof. intros Hrefl Hm w. unfold current. rewrite Hm. apply Hrefl. Qed.

Lemma steps_bind {A B} (R : FakeAWSState → FakeAWSState → Prop)
    (m : M A) (f : A → M B) :
  (∀ s1 s2 s3, R s1 s2 → R s2 s3 → R s1 s3) →
  steps R m → (∀ a, steps R (f a)) → steps R (m ≫= f).
Proof.
  intros Htrans Hm Hf w. specialize (Hm w). unfold mbind, M_bind.
  destruct (m w) as [[e|a] v]; cbn [fst snd] in *; [exact Hm |].
  apply (Htrans _ (current v)); [exact Hm | apply Hf].
Qed.

Lemma steps_for_each {A} (R : FakeAWSState → FakeAWSState → Prop)
    (l : list A) (body : A → M unit) :
  (∀ s, R s s) → (∀ s1 s2 s3, R s1 s2 → R s2 s3 → R s1 s3) →
  (∀ x, steps R (body x)) → steps R (for_each l body).
Proof.
  intros Hrefl Htrans Hbody. induction l as [|x l IH]; simpl.
  - intros w. apply Hrefl.
  - apply steps_bind; [exact Htrans | apply Hbody | intros _; exact IH].
Qed.

(** Reading [self.state] and going on with what was read. *)
Lemma steps_get_state {A} (R : FakeAWSState → FakeAWSState → Prop)
    (k : FakeAWSState → M A) :
  (∀ w, R (current w) (current (k (current w) w).2)) →
  steps R (get_state ≫= k).
Proof. intros Hk w. apply Hk. Qed.

Lemma steps_upload (intent : UploadToS3.t) :
  steps same_but_buckets (_perform_upload_s3_key intent).
Proof.
  intros w. unfold _perform_upload_s3_key, mbind, M_bind, getContent, get_state.
  destruct (files (filesystem w) !! UploadToS3.file intent); cbn [fst snd].
  - rewrite current_set_state. apply same_but_buckets_transform.
  - apply same_but_buckets_refl.
Qed.

Lemma steps_delete (intent : DeleteS3Keys.t) :
  steps same_but_buckets (_perform_delete_s3_keys intent).
Proof.
  apply steps_for_each;
    [apply same_but_buckets_refl | apply same_but_buckets_trans |].
  intros key. apply steps_get_state. intros w.
  rewrite current_set_state. apply same_but_buckets_transform.
Qed.

Lemma steps_copy (intent : CopyS3Keys.t) :
  steps same_but_buckets (_perform_copy_s3_keys intent).
Proof.
  unfold _perform_copy_s3_keys.
  apply steps_bind; [apply same_but_buckets_trans | |].
  { apply steps_preserves; [apply same_but_buckets_refl | preserves_primitive]. }
  intros s. apply steps_bind; [apply same_but_buckets_trans | |].
  { apply steps_preserves; [apply same_but_buckets_refl |].
    apply preserves_getitem. }
  intros source.
  apply steps_for_each;
    [apply same_but_buckets_refl | apply same_but_buckets_trans |].
  intros key. apply steps_get_state. intros w.
  unfold mbind, M_bind, getitem.
  destruct (source !! _); unfold mret, M_ret, raise; cbv iota.
  - rewrite current_set_state. apply same_but_buckets_transform.
  - apply same_but_buckets_refl.
Qed.

Lemma steps_upload_recursively (intent : UploadToS3Recursively.t) :
  steps same_but_buckets
    (perform_upload_s3_key_recursively get_dispatcher intent).
Proof.
  unfold perform_upload_s3_key_recursively.
  apply steps_for_each;
    [apply same_but_buckets_refl | apply same_but_buckets_trans |].
  intros child. apply steps_bind; [apply same_but_buckets_trans | |].
  { apply steps_preserves; [apply same_but_buckets_refl | preserves_primitive]. }
  intros path. apply steps_bind; [apply same_but_buckets_trans | |].
  { apply steps_preserves; [apply same_but_buckets_refl | preserves_primitive]. }
  intros [|].
  - unfold Effect_UploadToS3.
    apply steps_bind; [apply same_but_buckets_trans | |].
    { apply steps_preserves; [apply same_but_buckets_refl | preserves_primitive]. }
    intros _. apply steps_upload.
  - intros w. apply same_but_buckets_refl.
Qed.

(** What a performer of the fake does to the snapshot, intent by intent. *)
Lemma sync_perform_snapshot (secure_enough_string module_file : string)
    (intent : Intent) (w : World) :
  let after :=
    current (sync_perform secure_enough_string module_file intent w).2 in
  match intent with
  | ListS3KeysIntent _ | DownloadS3KeyIntent _ | ReadS3KeyIntent _
  | DownloadS3KeyRecursivelyIntent _ => after = current w
  | DeleteS3KeysIntent _ | CopyS3KeysIntent _ | UploadToS3Intent _
  | UploadToS3RecursivelyIntent _ => same_but_buckets (current w) after
  | UpdateS3RoutingRulesIntent i =>
      after = transform_routing_rules (UpdateS3RoutingRules.bucket i)
                (UpdateS3RoutingRules.routing_rules i) (current w)
  | UpdateS3ErrorPageIntent i =>
      after = transform_error_key (UpdateS3ErrorPage.bucket i)
                (UpdateS3ErrorPage.error_key i) (current w)
  | CreateCloudFrontInvalidationIntent i =>
      after = transform_cloudfront_invalidations (λ l, l ++ [i]) (current w)
  end.
Proof.
  cbv zeta.
  pose proof (sync_perform_reads secure_enough_string module_file intent)
    as Hreads.
  destruct intent as [i|i|i|i|i|i|i|i|i|i|i];
    try (unfold current; rewrite Hreads; reflexivity).
  - unfold sync_perform, _perform_update_s3_routing_rules, mbind, M_bind,
      get_state. cbn [fst snd]. apply current_set_state.
  - unfold sync_perform, mbind at 1, M_bind.
    rewrite run_update_s3_error_page. cbn [fst snd]. apply current_set_state.
  - unfold sync_perform, _perform_create_cloudfront_invalidation, mbind,
      M_bind, get_state. cbn [fst snd]. apply current_set_state.
  - unfold sync_perform.
    assert (H := steps_delete i w). unfold mbind at 1, M_bind.
    destruct (_perform_delete_s3_keys i w) as [[e|[]] v]; exact H.
  - unfold sync_perform.
    assert (H := steps_copy i w). unfold mbind at 1, M_bind.
    destruct (_perform_copy_s3_keys i w) as [[e|[]] v]; exact H.
  - unfold sync_perform.
    assert (H := steps_upload_recursively i w). unfold mbind at 1, M_bind.
    destruct (perform_upload_s3_key_recursively get_dispatcher i w)
      as [[e|[]] v]; exact H.
  - unfold sync_perform.
    assert (H := steps_upload i w). unfold mbind at 1, M_bind.
    destruct (_perform_upload_s3_key i w) as [[e|[]] v]; exact H.
Qed.

(** X8. What each intent leaves alone when the fake performs it.  None
    touches the boto service.  [ListS3Keys], [DownloadS3Key], [ReadS3Key]
    and [DownloadS3KeyRecursively] leave the fake as it is.  The others
    leave the filesystem as it is; [DeleteS3Keys], [CopyS3Keys],
    [UploadToS3] and [UploadToS3Recursively] change nothing but buckets,
    [UpdateS3RoutingRules] nothing but the routing rules of its bucket,
    [UpdateS3ErrorPage] nothing but the error key of its bucket, and
    [CreateCloudFrontInvalidation] only adds itself at the end of the
    invalidations.  This holds whether the performer returns or raises. *)
Theorem X8_footprints (secure_enough_string module_file : string)
    (intent : Intent) (w : World) :
  let w' := (sync_perform secure_enough_string module_file intent w).2 in
  let s := current w in
  let s' := current w' in
  s3 w' = s3 w
  ∧ match intent with
    | ListS3KeysIntent _ | DownloadS3KeyIntent _ | ReadS3KeyIntent _
    | DownloadS3KeyRecursivelyIntent _ => aws w' = aws w
    | DeleteS3KeysIntent _ | CopyS3KeysIntent _ | UploadToS3Intent _
    | UploadToS3RecursivelyIntent _ =>
        filesystem w' = filesystem w
        ∧ routing_rules s' = routing_rules s
        ∧ error_key s' = error_key s
        ∧ cloudfront_invalidations s' = cloudfront_invalidations s
    | UpdateS3RoutingRulesIntent i =>
        filesystem w' = filesystem w
        ∧ routing_rules s'
          = <[UpdateS3RoutingRules.bucket i
                := UpdateS3RoutingRules.routing_rules i]> (routing_rules s)
        ∧ s3_buckets s' = s3_buckets s
        ∧ error_key s' = error_key s
        ∧ cloudfront_invalidations s' = cloudfront_invalidations s
    | UpdateS3ErrorPageIntent i =>
        filesystem w' = filesystem w
        ∧ routing_rules s' = routing_rules s
        ∧ s3_buckets s' = s3_buckets s
        ∧ error_key s'
          = <[UpdateS3ErrorPage.bucket i := UpdateS3ErrorPage.error_key i]>
              (error_key s)
        ∧ cloudfront_invalidations s' = cloudfront_invalidations s
    | CreateCloudFrontInvalidationIntent i =>
        filesystem w' = filesystem w
        ∧ routing_rules s' = routing_rules s
        ∧ s3_buckets s' = s3_buckets s
        ∧ error_key s' = error_key s
        ∧ cloudfront_invalidations s' = cloudfront_invalidations s ++ [i]
    end.
Proof.
  cbv zeta. split; [apply sync_perform_s3 |].
  pose proof (sync_perform_reads secure_enough_string module_file intent)
    as Hreads.
  pose proof (sync_perform_filesystem secure_enough_string module_file intent)
    as Hfs.
  pose proof (sync_perform_snapshot secure_enough_string module_file intent w)
    as Hsnap.
  cbv zeta in Hsnap.
  destruct intent; try (apply Hreads);
    (split; [apply Hfs |]); try exact Hsnap; rewrite Hsnap; done.
Qed.

Lemma invalidations_sync_perform (secure_enough_string module_file : string)
    (intent : Intent) (w : World) :
  cloudfront_invalidations
    (current (sync_perform secure_enough_string module_file intent w).2)
  = cloudfront_invalidations (current w) ++ invalidations_of [intent].
Proof.
  pose proof (sync_perform_snapshot secure_enough_string module_file intent w)
    as Hsnap.
  cbv zeta in Hsnap.
  destruct intent; cbn [invalidations_of omap list_omap];
    rewrite ?app_nil_r;
    try (rewrite Hsnap; reflexivity);
    destruct Hsnap as (_ & _ & Hsnap); exact Hsnap.
Qed.

(** X9. The invalidations of the snapshot are a log: after any sequence of
    intents, performed one after the other whatever they return or raise,
    they are the invalidations there were before, followed by the
    [CreateCloudFrontInvalidation] intents of the sequence, in the order in
    which they were performed. *)
Theorem X9_invalidations_in_order (secure_enough_string module_file : string)
    (intents : list Intent) (w : World) :
  cloudfront_invalidations
    (current (perform_in_turn secure_enough_string module_file intents w))
  = cloudfront_invalidations (current w) ++ invalidations_of intents.
Proof.
  unfold perform_in_turn. revert w.
  induction intents as [|intent intents IH]; intros w.
  - cbn. rewrite app_nil_r. reflexivity.
  - cbn [fold_left]. rewrite IH, invalidations_sync_perform.
    rewrite <- app_assoc. f_equal.
    unfold invalidations_of. cbn [omap list_omap].
    destruct intent; reflexivity.
Qed.

Lemma grown_in_turn (secure_enough_string module_file : string)
    (intents : list Intent) (w : World) :
  grown w (perform_in_turn secure_enough_string module_file intents w).
Proof.
  unfold perform_in_turn. revert w.
  induction intents as [|intent intents IH]; intros w.
  - apply grown_same_aws. reflexivity.
  - cbn [fold_left].
    apply (grown_trans _
             (sync_perform secure_enough_string module_file intent w).2);
      [apply keeps_sync_perform | apply IH].
Qed.

(** X10. A fake made by [fake_aws] keeps its references sound through any
    sequence of intents: [state] always refers to a snapshot of the store,
    and [initial_state] still refers to the snapshot that [fake_aws] made,
    with the routing rules and buckets it was given, no error key and no
    invalidation. *)
Theorem X10_references_stay_sound
    (secure_enough_string module_file : string)
    (rules : gmap string RoutingRules)
    (buckets : gmap string (gmap string Content))
    (remote : gmap string (gmap string boto.Key)) (fs : FileSystem)
    (intents : list Intent) :
  let w := {| aws := fake_aws rules buckets; s3 := remote; filesystem := fs;
              performed := [] |} in
  let w' := perform_in_turn secure_enough_string module_file intents w in
  state (aws w') < length (snapshots (aws w'))
  ∧ snapshots (aws w') !! initial_state (aws w')
    = Some {| routing_rules := rules; s3_buckets := buckets;
              error_key := ∅; cloudfront_invalidations := [] |}
  ∧ snapshot_at (aws w') (initial_state (aws w'))
    = snapshot_at (aws w) (state (aws w)).
Proof.
  cbv zeta.
  set (w := {| aws := fake_aws rules buckets; s3 := remote; filesystem := fs;
               performed := [] |}).
  pose proof (grown_in_turn secure_enough_string module_file intents w)
    as Hgrown.
  set (w' := perform_in_turn secure_enough_string module_file intents w) in *.
  pose proof (grown_lookup w w' 0 Hgrown ltac:(simpl; lia)) as Hlookup.
  destruct Hgrown as (new & Hs & Hi & Hst).
  assert (Hinit : snapshots (aws w') !! initial_state (aws w')
                  = Some {| routing_rules := rules; s3_buckets := buckets;
                            error_key := ∅;
                            cloudfront_invalidations := [] |}).
  { rewrite Hi. exact Hlookup. }
  split; [| split; [exact Hinit |]].
  - destruct Hst as [[-> Hst] | [_ Hst]]; [| lia].
    rewrite Hst, Hs, app_nil_r. simpl. lia.
  - unfold snapshot_at. rewrite Hinit. reflexivity.
Qed.

(** ** The fake against the service *)

Lemma mirrors_dom (w : World) (b : string) (inner : gmap string Content)
    (keys : gmap string boto.Key) :
  mirrors w → s3_buckets (current w) !! b = Some inner →
  s3 w !! b = Some keys → dom inner = dom keys.
Proof.
  intros [_ Hsame] Hinner Hkeys. apply set_eq. intros k.
  rewrite !elem_of_dom. specialize (Hsame b k).
  unfold stored, object in Hsame. rewrite Hinner, Hkeys in Hsame.
  simpl in Hsame. rewrite <- !fmap_is_Some with (f := text).
  rewrite Hsame. rewrite fmap_is_Some. reflexivity.
Qed.

Lemma mirrors_views (w : World) :
  text_view (current w) = contents_view (s3 w) → mirrors w.
Proof.
  intros Hviews.
  assert (Hb : ∀ b,
             (λ bucket : gmap string Content, text <$> bucket)
               <$> s3_buckets (current w) !! b
             = (λ bucket : gmap string boto.Key, boto.contents <$> bucket)
                 <$> s3 w !! b).
  { intros b. apply (f_equal (.!! b)) in Hviews.
    unfold text_view, contents_view in Hviews.
    rewrite !lookup_fmap in Hviews. exact Hviews. }
  split.
  - intros b. specialize (Hb b).
    destruct (s3_buckets (current w) !! b), (s3 w !! b);
      try discriminate; split; intros [? Hsome]; try discriminate; eauto.
  - intros b k. specialize (Hb b). unfold stored, object.
    destruct (s3_buckets (current w) !! b) as [inner|],
      (s3 w !! b) as [keys|]; try discriminate; [| reflexivity].
    simpl in *. injection Hb as Hb. apply (f_equal (.!! k)) in Hb.
    rewrite !lookup_fmap in Hb. exact Hb.
Qed.

(** X11. Where the fake mirrors the service, [ListS3Keys] gives the same in
    both for a bucket that is there: the same set of names, nothing changed.
    For a bucket that is not there both raise, the fake [KeyError] and the
    real performer the error of boto. *)
Theorem X11_list_agrees (w : World) (intent : ListS3Keys.t) :
  mirrors w →
  match s3 w !! ListS3Keys.bucket intent with
  | Some _ => perform_list_s3_keys intent w = _perform_list_s3_keys intent w
              ∧ ∃ listed, _perform_list_s3_keys intent w = (inr listed, w)
  | None =>
      perform_list_s3_keys intent w
      = (inl (S3ResponseError (ListS3Keys.bucket intent)), w)
      ∧ _perform_list_s3_keys intent w
        = (inl (KeyError (ListS3Keys.bucket intent)), w)
  end.
Proof.
  intros Hmirrors.
  destruct (s3 w !! ListS3Keys.bucket intent) as [keys|] eqn:Hkeys.
  - destruct (proj2 (proj1 Hmirrors (ListS3Keys.bucket intent)))
      as [inner Hinner]; [rewrite Hkeys; eauto |].
    rewrite (run_list_s3_keys intent w inner Hinner).
    split; [| eauto].
    unfold perform_list_s3_keys, mbind, M_bind, get_bucket, bucket_list.
    rewrite Hkeys. cbn [default]. rewrite Hkeys. cbn [default].
    rewrite (mirrors_dom w _ inner keys Hmirrors Hinner Hkeys). reflexivity.
  - split.
    + unfold perform_list_s3_keys, mbind, M_bind, get_bucket.
      rewrite Hkeys. reflexivity.
    + apply run_list_s3_keys_absent.
      destruct (s3_buckets (current w) !! ListS3Keys.bucket intent) eqn:Hb;
        [| reflexivity].
      destruct (proj1 (proj1 Hmirrors (ListS3Keys.bucket intent)))
        as [? Hsome]; [eauto |]. rewrite Hkeys in Hsome. discriminate.
Qed.

Lemma X11_list_agrees_witness :
  let w :=
    with_s3 {["docs" := {["a/b.html" := {| boto.contents := "<html/>";
                                           boto.metadata := ∅ |}]}]}
      (world_of {["docs" := {["a/b.html" := Unicode "<html/>"]}]} ∅) in
  let intent := {| ListS3Keys.bucket := "docs"; ListS3Keys.prefix := "a/" |} in
  mirrors w
  ∧ perform_list_s3_keys intent w = _perform_list_s3_keys intent w
  ∧ ∃ listed, _perform_list_s3_keys intent w = (inr listed, w).
Proof.
  cbv zeta.
  assert (Hmirrors :
            mirrors
              (with_s3 {["docs" := {["a/b.html" :=
                                       {| boto.contents := "<html/>";
                                          boto.metadata := ∅ |}]}]}
                 (world_of {["docs" := {["a/b.html" := Unicode "<html/>"]}]}
                    ∅)))
    by (apply mirrors_views; vm_compute; reflexivity).
  split; [exact Hmirrors |].
  pose proof (X11_list_agrees _
                {| ListS3Keys.bucket := "docs"; ListS3Keys.prefix := "a/" |}
                Hmirrors) as Hagrees.
  destruct (s3 _ !! _) eqn:Hbucket in Hagrees; [exact Hagrees |].
  vm_compute in Hbucket. discriminate.
Defined.



Lemma fake_delete_s3 (intent : DeleteS3Keys.t) :
  preserves s3 (_perform_delete_s3_keys intent).
Proof. preserves_performer. Qed.

(** X13. Where the fake mirrors the service and the bucket is there,
    [DeleteS3Keys] performed on both leaves them mirroring each other, with
    the filesystem as it was.  Where the bucket is not there they part: boto
    raises [S3ResponseError] for the bucket, the fake returns and leaves its
    snapshot as it is. *)
Theorem X13_delete_agrees (w : World) (intent : DeleteS3Keys.t) :
  mirrors w →
  match s3 w !! DeleteS3Keys.bucket intent with
  | Some _ =>
      ∃ w',
        (perform_delete_s3_keys intent ;; _perform_delete_s3_keys intent) w
        = (inr tt, w')
        ∧ mirrors w' ∧ filesystem w' = filesystem w
  | None =>
      perform_delete_s3_keys intent w
      = (inl (S3ResponseError (DeleteS3Keys.bucket intent)), w)
      ∧ ∃ w', _perform_delete_s3_keys intent w = (inr tt, w')
              ∧ current w' = current w
  end.
Proof.
  intros Hmirrors.
  destruct (s3 w !! DeleteS3Keys.bucket intent) as [keys|] eqn:Hkeys.
  - set (names := (λ key, DeleteS3Keys.prefix intent +:+ key)
                    <$> DeleteS3Keys.keys intent).
    set (w1 := with_s3 (<[DeleteS3Keys.bucket intent
                           := foldr delete keys names]> (s3 w)) w).
    assert (Hreal : perform_delete_s3_keys intent w = (inr tt, w1)).
    { unfold perform_delete_s3_keys, mbind, M_bind, get_bucket, delete_keys.
      rewrite Hkeys. cbv iota. rewrite Hkeys. reflexivity. }
    destruct (run_delete_s3_keys intent w1) as (w' & Hrun & Hcur & Hfs).
    pose proof (fake_delete_s3 intent w1) as Hs3.
    rewrite Hrun in Hs3. cbn [snd] in Hs3.
    change (current w1) with (current w) in Hcur.
    change (filesystem w1) with (filesystem w) in Hfs.
    change (s3 w1) with (<[DeleteS3Keys.bucket intent
                            := foldr delete keys names]> (s3 w)) in Hs3.
    exists w'. split.
    { unfold mbind, M_bind. rewrite Hreal. exact Hrun. }
    split; [| exact Hfs]. split.
    + intros b. rewrite Hcur, bucket_discarded, Hs3.
      destruct (decide (b = DeleteS3Keys.bucket intent)) as [->|Hb].
      * rewrite lookup_insert_eq. rewrite (proj1 Hmirrors), Hkeys.
        split; eauto.
      * rewrite lookup_insert_ne by done. apply (proj1 Hmirrors).
    + intros b k. rewrite Hcur. unfold object. rewrite Hs3.
      destruct (decide (b = DeleteS3Keys.bucket intent ∧ k ∈ names))
        as [[-> Hin]|Hout].
      * rewrite lookup_insert_eq. simpl.
        rewrite lookup_foldr_delete by exact Hin.
        apply list_elem_of_fmap in Hin as (key & -> & Hkey).
        rewrite stored_discarded by exact Hkey. reflexivity.
      * rewrite stored_discarded_other by exact Hout.
        rewrite (proj2 Hmirrors). unfold object.
        destruct (decide (b = DeleteS3Keys.bucket intent)) as [->|Hb].
        -- rewrite lookup_insert_eq, Hkeys. simpl.
           rewrite lookup_foldr_delete_not_elem_of; [reflexivity |].
           intros Hin. apply Hout. done.
        -- rewrite lookup_insert_ne by done. reflexivity.
  - split.
    { unfold perform_delete_s3_keys, mbind, M_bind, get_bucket.
      rewrite Hkeys. reflexivity. }
    destruct (run_delete_s3_keys intent w) as (w' & Hrun & Hcur & _).
    exists w'. split; [exact Hrun |]. rewrite Hcur.
    apply discarded_absent. intros key _. unfold stored.
    destruct (s3_buckets (current w) !! DeleteS3Keys.bucket intent)
      as [inner|] eqn:Hinner; [| reflexivity].
    destruct (proj1 (proj1 Hmirrors (DeleteS3Keys.bucket intent)))
      as [? Hsome]; [eauto |]. rewrite Hkeys in Hsome. discriminate.
Qed.

Lemma X13_delete_agrees_witness :
  let w :=
    with_s3 {["docs" := {["a/b.html" := {| boto.contents := "<html/>";
                                           boto.metadata := ∅ |}]}]}
      (world_of {["docs" := {["a/b.html" := Unicode "<html/>"]}]} ∅) in
  let intent :=
    {| DeleteS3Keys.bucket := "docs"; DeleteS3Keys.prefix := "a/";
       DeleteS3Keys.keys := ["b.html"; "c.html"] |} in
  mirrors w
  ∧ ∃ w',
      (perform_delete_s3_keys intent ;; _perform_delete_s3_keys intent) w
      = (inr tt, w')
      ∧ mirrors w' ∧ filesystem w' = filesystem w.
Proof.
  cbv zeta.
  assert (Hmirrors :
            mirrors
              (with_s3 {["docs" := {["a/b.html" :=
                                       {| boto.contents := "<html/>";
                                          boto.metadata := ∅ |}]}]}
                 (world_of {["docs" := {["a/b.html" := Unicode "<html/>"]}]}
                    ∅)))
    by (apply mirrors_views; vm_compute; reflexivity).
  split; [exact Hmirrors |].
  pose proof (X13_delete_agrees _
                {| DeleteS3Keys.bucket := "docs"; DeleteS3Keys.prefix := "a/";
                   DeleteS3Keys.keys := ["b.html"; "c.html"] |}
                Hmirrors) as Hagrees.
  destruct (s3 _ !! _) eqn:Hbucket in Hagrees; [exact Hagrees |].
  vm_compute in Hbucket. discriminate.
Defined.

(** X14. Where the fake records the error keys that the website
    configurations of the service carry, [UpdateS3ErrorPage] for a bucket
    with a configuration returns the same from both performers and leaves
    them in agreement; the service is written to only when the key changes,
    and only the error key of that one configuration is.  For a bucket
    without a configuration they part: boto raises [S3ResponseError], the
    fake returns none and records the new key. *)
Theorem X14_error_page_agrees (w : World)
    (configurations : gmap string website.Configuration)
    (intent : UpdateS3ErrorPage.t) :
  error_key (current w) = error_keys configurations →
  let bucket := UpdateS3ErrorPage.bucket intent in
  let new := UpdateS3ErrorPage.error_key intent in
  let real := perform_update_s3_error_page configurations intent in
  let fake := _perform_update_s3_error_page intent w in
  match configurations !! bucket with
  | Some config =>
      fake.1 = real.1
      ∧ error_key (current fake.2) = error_keys real.2
      ∧ (website.error_key config = Some new → real.2 = configurations)
      ∧ (∀ b, website.routing_rules <$> real.2 !! b
              = website.routing_rules <$> configurations !! b)
      ∧ (∀ b, b ≠ bucket → real.2 !! b = configurations !! b)
  | None =>
      real = (inl (S3ResponseError bucket), configurations)
      ∧ fake.1 = inr None
      ∧ error_key (current fake.2) !! bucket = Some new
  end.
Proof.
  intros Hkeys. cbv zeta. rewrite run_update_s3_error_page. cbn [fst snd].
  rewrite current_set_state. cbn [error_key transform_error_key].
  unfold perform_update_s3_error_page, transform_key. rewrite Hkeys.
  unfold error_keys. rewrite lookup_omap.
  destruct (configurations !! UpdateS3ErrorPage.bucket intent)
    as [config|] eqn:Hconfig; simpl.
  - case_bool_decide as Hsame; cbn [fst snd].
    + split; [reflexivity |]. split.
      { apply insert_id. rewrite lookup_omap, Hconfig. exact Hsame. }
      split; [reflexivity |]. split; reflexivity.
    + split; [reflexivity |]. split.
      { apply map_eq. intros b. rewrite lookup_omap.
        destruct (decide (b = UpdateS3ErrorPage.bucket intent)) as [->|Hb].
        - rewrite !lookup_insert_eq. reflexivity.
        - rewrite !lookup_insert_ne by done. rewrite lookup_omap.
          reflexivity. }
      split; [intros Hset; contradiction |]. split.
      * intros b.
        destruct (decide (b = UpdateS3ErrorPage.bucket intent)) as [->|Hb].
        -- rewrite lookup_insert_eq, Hconfig. reflexivity.
        -- rewrite lookup_insert_ne by done. reflexivity.
      * intros b Hb. rewrite lookup_insert_ne by done. reflexivity.
  - split; [reflexivity |]. split; [reflexivity |]. apply lookup_insert_eq.
Qed.

Lemma X14_error_page_agrees_witness :
  let first := {| UpdateS3ErrorPage.bucket := "docs";
                  UpdateS3ErrorPage.target_prefix := "en/0.3.0/" |} in
  let w := (_perform_update_s3_error_page first (world_of ∅ ∅)).2 in
  let configurations : gmap string website.Configuration :=
    {["docs" := {| website.routing_rules := [];
                   website.error_key :=
                     Some "en/0.3.0/error_pages/404.html" |}]} in
  let intent := {| UpdateS3ErrorPage.bucket := "docs";
                   UpdateS3ErrorPage.target_prefix := "en/0.3.1/" |} in
  error_key (current w) = error_keys configurations
  ∧ (_perform_update_s3_error_page intent w).1
    = (perform_update_s3_error_page configurations intent).1
  ∧ (_perform_update_s3_error_page intent w).1
    = inr (Some "en/0.3.0/error_pages/404.html").
Proof.
  cbv zeta.
  assert (Hkeys :
            error_key
              (current
                 (_perform_update_s3_error_page
                    {| UpdateS3ErrorPage.bucket := "docs";
                       UpdateS3ErrorPage.target_prefix := "en/0.3.0/" |}
                    (world_of ∅ ∅)).2)
            = error_keys
                {["docs" := {| website.routing_rules := [];
                               website.error_key :=
                                 Some "en/0.3.0/error_pages/404.html" |}]})
    by (vm_compute; reflexivity).
  split; [exact Hkeys |].
  pose proof (X14_error_page_agrees _ _
                {| UpdateS3ErrorPage.bucket := "docs";
                   UpdateS3ErrorPage.target_prefix := "en/0.3.1/" |}
                Hkeys) as Hagrees.
  cbv zeta in Hagrees.
  destruct (_ !! _) eqn:Hconfig in Hagrees;
    [| vm_compute in Hconfig; discriminate].
  split; [exact (proj1 Hagrees) |]. vm_compute. reflexivity.
Defined.

(** ** Copies on the fake and on the service *)

Lemma fake_copy_loop_buckets (source : gmap string Content)
    (source_prefix destination_bucket destination_prefix : string)
    (keys : list string) (w : World) (b : string) :
  is_Some (s3_buckets (current w) !! destination_bucket) →
  is_Some
    (s3_buckets
       (current
          (for_each keys (λ key,
             s ← get_state;
             content ← getitem source (source_prefix +:+ key);
             set_state (transform_s3_buckets destination_bucket
                          (destination_prefix +:+ key) (value content) s))
             w).2) !! b)
  ↔ is_Some (s3_buckets (current w) !! b).
Proof.
  revert w. induction keys as [|key keys IH]; intros w Hdst; [reflexivity |].
  destruct (source !! (source_prefix +:+ key)) as [content|] eqn:Hcontent.
  - set (w1 := (set_state
                  (transform_s3_buckets destination_bucket
                     (destination_prefix +:+ key) (value content)
                     (current w)) w).2).
    rewrite (for_each_cons _ _ _ w w1)
      by (unfold mbind, M_bind, get_state, getitem; rewrite Hcontent;
          reflexivity).
    assert (Hcur : current w1
                   = transform_s3_buckets destination_bucket
                       (destination_prefix +:+ key) (value content)
                       (current w))
      by apply current_set_state.
    destruct (lookup_transform_keys_value destination_bucket
                (destination_prefix +:+ key) content (s3_buckets (current w)))
      as (inner & Hinner & _).
    rewrite IH.
    + rewrite Hcur. destruct (decide (b = destination_bucket)) as [->|Hb].
      * cbn [s3_buckets transform_s3_buckets]. rewrite Hinner.
        split; eauto.
      * rewrite bucket_value_other by exact Hb. reflexivity.
    + rewrite Hcur. cbn [s3_buckets transform_s3_buckets]. rewrite Hinner.
      eauto.
  - rewrite (for_each_cons_raise _ _ _ w w (KeyError (source_prefix +:+ key)))
      by (unfold mbind, M_bind, get_state, getitem; rewrite Hcontent;
          reflexivity).
    reflexivity.
Qed.

Lemma run_real_copy_apart
    (source_bucket source_prefix destination_bucket destination_prefix : string)
    (keys : list string) (w : World) :
  is_Some (s3 w !! destination_bucket) →
  (∀ key, key ∈ keys →
     is_Some (object w source_bucket (source_prefix +:+ key))) →
  (source_bucket = destination_bucket →
   ∀ key key', key ∈ keys → key' ∈ keys →
     destination_prefix +:+ key ≠ source_prefix +:+ key') →
  ∃ w',
    for_each keys (λ key,
      source_key ← get_key source_bucket (source_prefix +:+ key);
      match source_key with
      | None => raise AttributeError
      | Some source_key =>
          copy source_key destination_bucket (destination_prefix +:+ key)
            (destination_metadata key (boto.metadata source_key))
      end) w
    = (inr tt, w')
    ∧ (∀ key, key ∈ keys →
         ∃ source_key,
           object w source_bucket (source_prefix +:+ key) = Some source_key
           ∧ object w' destination_bucket (destination_prefix +:+ key)
             = Some (copied key source_key))
    ∧ (∀ b k, ¬ (b = destination_bucket
                 ∧ k ∈ (λ key, destination_prefix +:+ key) <$> keys) →
         object w' b k = object w b k)
    ∧ (∀ b, is_Some (s3 w' !! b) ↔ is_Some (s3 w !! b))
    ∧ aws w' = aws w ∧ filesystem w' = filesystem w.
Proof.
  revert w. induction keys as [|key keys IH]; intros w Hdst Hall Hapart.
  - exists w. split; [reflexivity |]. split; [| done].
    intros key Hin. inversion Hin.
  - destruct (Hall key) as [source_key Hsource]; [by left |].
    destruct Hdst as [bucket Hbucket].
    set (w1 := with_s3
                 (<[destination_bucket :=
                      <[destination_prefix +:+ key
                          := copied key source_key]> bucket]> (s3 w)) w).
    assert (Hobj : ∀ b k,
               object w1 b k
               = if decide (b = destination_bucket
                            ∧ k = destination_prefix +:+ key)
                 then Some (copied key source_key) else object w b k)
      by (intros b k; apply object_with_s3_insert, Hbucket).
    assert (Hkept : ∀ key', key' ∈ key :: keys →
               object w1 source_bucket (source_prefix +:+ key')
               = object w source_bucket (source_prefix +:+ key')).
    { intros key' Hin. rewrite Hobj. rewrite decide_False; [reflexivity |].
      intros [Hb Hk]. symmetry in Hk. revert Hk.
      apply (Hapart Hb); [by left | exact Hin]. }
    destruct (IH w1) as (w' & Hrun & Hkeys & Hframe & Hbuckets & Haws & Hfs).
    { unfold w1, with_s3. cbn [s3]. rewrite lookup_insert_eq. eauto. }
    { intros key' Hin. rewrite Hkept by (by right). apply Hall. by right. }
    { intros Hb k1 k2 H1 H2. apply (Hapart Hb); by right. }
    exists w'. split; [| split; [| split; [| split]]].
    + simpl. unfold mbind at 1, M_bind. unfold mbind at 1, M_bind.
      unfold get_key at 1. fold (object w source_bucket (source_prefix +:+ key)).
      rewrite Hsource.
      rewrite (run_copy w _ _ _ _ bucket Hbucket). exact Hrun.
    + intros key' Hin.
      destruct (decide (key' ∈ keys)) as [Hin'|Hnotin].
      * destruct (Hkeys key' Hin') as (source_key' & Hinitial & Hcopied).
        exists source_key'. split; [| exact Hcopied].
        rewrite <- Hinitial. symmetry. apply Hkept. exact Hin.
      * apply elem_of_cons in Hin as [-> | Hin]; [| done].
        exists source_key. split; [exact Hsource |].
        rewrite Hframe.
        -- rewrite Hobj. rewrite decide_True; done.
        -- intros [_ Hk]. apply list_elem_of_fmap in Hk as (key' & Heq & Hin').
           apply (inj (String.app destination_prefix)) in Heq. congruence.
    + intros b k Hne. rewrite Hframe.
      * rewrite Hobj. rewrite decide_False; [reflexivity |].
        intros [-> ->]. apply Hne. split; [done |]. rewrite fmap_cons. by left.
      * intros [-> Hk]. apply Hne. split; [done |]. rewrite fmap_cons.
        by right.
    + intros b. rewrite Hbuckets. unfold w1, with_s3. cbn [s3].
      destruct (decide (b = destination_bucket)) as [->|Hb].
      * rewrite lookup_insert_eq, Hbucket. split; eauto.
      * rewrite lookup_insert_ne by done. reflexivity.
    + split; [rewrite Haws | rewrite Hfs]; reflexivity.
Qed.

Lemma fake_copy_s3 (intent : CopyS3Keys.t) :
  preserves s3 (_perform_copy_s3_keys intent).
Proof. preserves_performer. Qed.

(** X15. Where the fake mirrors the service, the buckets are there, the
    source has every key, and no name that is written is also a name that is
    read (the buckets differ, or the destination names and the source names
    are apart), [CopyS3Keys] performed on both leaves them mirroring each
    other, with the filesystem as it was.  The fake reads the source from
    the snapshot it took before the loop and boto reads the bucket as it is
    at each turn, which is why the names must be apart. *)
Theorem X15_copy_agrees (w : World) (intent : CopyS3Keys.t) :
  let source_bucket := CopyS3Keys.source_bucket intent in
  let source_prefix := CopyS3Keys.source_prefix intent in
  let destination_bucket := CopyS3Keys.destination_bucket intent in
  let destination_prefix := CopyS3Keys.destination_prefix intent in
  let keys := CopyS3Keys.keys intent in
  mirrors w →
  is_Some (s3 w !! destination_bucket) →
  (∀ key, key ∈ keys →
     is_Some (object w source_bucket (source_prefix +:+ key))) →
  (source_bucket = destination_bucket →
   ∀ key key', key ∈ keys → key' ∈ keys →
     destination_prefix +:+ key ≠ source_prefix +:+ key') →
  is_Some (s3 w !! source_bucket) →
  ∃ w',
    (perform_copy_s3_keys intent ;; _perform_copy_s3_keys intent) w
    = (inr tt, w')
    ∧ mirrors w' ∧ filesystem w' = filesystem w.
Proof.
  cbv zeta. intros Hmirrors Hdst Hall Hapart [remote Hremote].
  destruct (run_real_copy_apart _ _ _ _ _ w Hdst Hall Hapart)
    as (w1 & Hreal & Hcopied & Hframe & Hbuckets & Haws & Hfs).
  assert (Hcur : current w1 = current w)
    by (unfold current; rewrite Haws; reflexivity).
  destruct (proj2 (proj1 Hmirrors (CopyS3Keys.source_bucket intent)))
    as [source Hsource]; [eauto |].
  assert (Hsource1 : s3_buckets (current w1) !! CopyS3Keys.source_bucket intent
                     = Some source) by (rewrite Hcur; exact Hsource).
  assert (Hfound : ∀ key, key ∈ CopyS3Keys.keys intent →
             is_Some (source !! (CopyS3Keys.source_prefix intent +:+ key))).
  { intros key Hin. destruct (Hall key Hin) as [source_key Hkey].
    pose proof (proj2 Hmirrors (CopyS3Keys.source_bucket intent)
                  (CopyS3Keys.source_prefix intent +:+ key)) as Hsame.
    rewrite Hkey in Hsame. unfold stored in Hsame.
    rewrite Hsource in Hsame. simpl in Hsame.
    apply fmap_is_Some with (f := text). rewrite Hsame. eauto. }
  pose proof (fake_copy_loop_buckets source
                (CopyS3Keys.source_prefix intent)
                (CopyS3Keys.destination_bucket intent)
                (CopyS3Keys.destination_prefix intent)
                (CopyS3Keys.keys intent) w1) as Hfakebuckets.
  destruct (run_fake_copy_loop source (CopyS3Keys.source_prefix intent)
              (CopyS3Keys.destination_bucket intent)
              (CopyS3Keys.destination_prefix intent)
              (CopyS3Keys.keys intent) w1 Hfound)
    as (w' & Hfake & Hstored & Hothers & Hfs').
  rewrite Hfake in Hfakebuckets. cbn [snd] in Hfakebuckets.
  pose proof (fake_copy_s3 intent w1) as Hs3.
  rewrite (run_fake_copy intent w1 source Hsource1), Hfake in Hs3.
  cbn [snd] in Hs3.
  exists w'. split.
  { unfold mbind, M_bind.
    assert (Hwhole : perform_copy_s3_keys intent w = (inr tt, w1)).
    { unfold perform_copy_s3_keys, mbind at 1, M_bind, get_bucket.
      rewrite Hremote. exact Hreal. }
    rewrite Hwhole. rewrite (run_fake_copy intent w1 source Hsource1).
    exact Hfake. }
  split; [| rewrite Hfs', Hfs; reflexivity]. split.
  - intros b. rewrite Hfakebuckets, Hs3, Hbuckets, Hcur.
    + apply (proj1 Hmirrors).
    + rewrite Hcur. apply (proj1 Hmirrors). exact Hdst.
  - intros b k. unfold object. rewrite Hs3. fold (object w1 b k).
    destruct (decide (b = CopyS3Keys.destination_bucket intent
                      ∧ k ∈ (λ key, CopyS3Keys.destination_prefix intent
                                      +:+ key) <$> CopyS3Keys.keys intent))
      as [[-> Hin]|Hout].
    + apply list_elem_of_fmap in Hin as (key & -> & Hkey).
      rewrite (Hstored key Hkey).
      destruct (Hcopied key Hkey) as (source_key & Hinitial & Hdest).
      rewrite Hdest.
      pose proof (proj2 Hmirrors (CopyS3Keys.source_bucket intent)
                    (CopyS3Keys.source_prefix intent +:+ key)) as Hsame.
      rewrite Hinitial in Hsame. unfold stored in Hsame.
      rewrite Hsource in Hsame. simpl in Hsame. rewrite Hsame. reflexivity.
    + rewrite (Hothers b k Hout), (Hframe b k Hout), Hcur.
      apply (proj2 Hmirrors).
Qed.

Lemma X15_copy_agrees_witness :
  let w :=
    with_s3 {["docs" := {["a/b.css" := {| boto.contents := "body {}";
                                          boto.metadata := ∅ |}]}]}
      (world_of {["docs" := {["a/b.css" := Unicode "body {}"]}]} ∅) in
  let intent :=
    {| CopyS3Keys.source_bucket := "docs";
       CopyS3Keys.source_prefix := "a/";
       CopyS3Keys.destination_bucket := "docs";
       CopyS3Keys.destination_prefix := "c/";
       CopyS3Keys.keys := ["b.css"] |} in
  mirrors w
  ∧ ∃ w',
      (perform_copy_s3_keys intent ;; _perform_copy_s3_keys intent) w
      = (inr tt, w')
      ∧ mirrors w' ∧ filesystem w' = filesystem w.
Proof.
  cbv zeta.
  assert (Hmirrors :
            mirrors
              (with_s3 {["docs" := {["a/b.css" :=
                                       {| boto.contents := "body {}";
                                          boto.metadata := ∅ |}]}]}
                 (world_of {["docs" := {["a/b.css" := Unicode "body {}"]}]}
                    ∅)))
    by (apply mirrors_views; vm_compute; reflexivity).
  split; [exact Hmirrors |].
  apply (X15_copy_agrees _
           {| CopyS3Keys.source_bucket := "docs";
              CopyS3Keys.source_prefix := "a/";
              CopyS3Keys.destination_bucket := "docs";
              CopyS3Keys.destination_prefix := "c/";
              CopyS3Keys.keys := ["b.css"] |} Hmirrors).
  - vm_compute. eauto.
  - intros key Hin. apply list_elem_of_singleton in Hin as ->.
    vm_compute. eauto.
  - intros _ key key' Hin Hin'.
    apply list_elem_of_singleton in Hin as ->.
    apply list_elem_of_singleton in Hin' as ->. discriminate.
  - vm_compute. eauto.
Defined.

(** ** Routing rules on the fake and on the service *)

Lemma run_update_s3_routing_rules (intent : UpdateS3RoutingRules.t)
    (w : World) :
  _perform_update_s3_routing_rules intent w
  = (inr tt,
     (set_state (transform_routing_rules (UpdateS3RoutingRules.bucket intent)
                   (UpdateS3RoutingRules.routing_rules intent) (current w))
        w).2).
Proof. reflexivity. Qed.

(** X16. Where the routing rules and the error keys that the fake has
    recorded are those of the website configurations of the service,
    [UpdateS3RoutingRules] for a bucket with a configuration succeeds on both
    and leaves them so: the bucket has the new rules, the error keys are the
    ones they were, on both sides, and no other configuration is written.
    For a bucket without a configuration they part: boto raises
    [S3ResponseError], the fake records the rules. *)
Theorem X16_routing_rules_agree (w : World)
    (configurations : gmap string website.Configuration)
    (intent : UpdateS3RoutingRules.t) :
  rules_recorded (current w) configurations →
  error_key (current w) = error_keys configurations →
  let bucket := UpdateS3RoutingRules.bucket intent in
  let rules := UpdateS3RoutingRules.routing_rules intent in
  let real := perform_update_s3_routing_rules configurations intent in
  let fake := _perform_update_s3_routing_rules intent w in
  fake.1 = inr tt
  ∧ routing_rules (current fake.2) !! bucket = Some rules
  ∧ error_key (current fake.2) = error_key (current w)
  ∧ match configurations !! bucket with
    | Some config =>
        real.1 = inr tt
        ∧ rules_recorded (current fake.2) real.2
        ∧ error_key (current fake.2) = error_keys real.2
        ∧ website.routing_rules <$> real.2 !! bucket = Some rules
        ∧ (∀ b, b ≠ bucket → real.2 !! b = configurations !! b)
    | None => real = (inl (S3ResponseError bucket), configurations)
    end.
Proof.
  intros Hrules Hkeys. cbv zeta. rewrite run_update_s3_routing_rules.
  cbn [fst snd]. rewrite current_set_state.
  cbn [routing_rules error_key transform_routing_rules].
  unfold perform_update_s3_routing_rules, transform_key.
  split; [reflexivity |]. split; [apply lookup_insert_eq |].
  split; [reflexivity |].
  destruct (configurations !! UpdateS3RoutingRules.bucket intent)
    as [config|] eqn:Hconfig; [| reflexivity].
  cbn [fst snd]. split; [reflexivity |]. split; [| split; [| split]].
  - intros b rules. cbn [routing_rules transform_routing_rules].
    unfold transform_key.
    destruct (decide (b = UpdateS3RoutingRules.bucket intent)) as [->|Hb].
    + rewrite !lookup_insert_eq. intros [= <-]. reflexivity.
    + rewrite !lookup_insert_ne by done. apply Hrules.
  - rewrite Hkeys. unfold error_keys. apply map_eq. intros b.
    rewrite !lookup_omap.
    destruct (decide (b = UpdateS3RoutingRules.bucket intent)) as [->|Hb].
    + rewrite lookup_insert_eq, Hconfig. reflexivity.
    + rewrite lookup_insert_ne by done. reflexivity.
  - rewrite lookup_insert_eq. reflexivity.
  - intros b Hb. rewrite lookup_insert_ne by done. reflexivity.
Qed.

Lemma X16_routing_rules_agree_witness :
  let w := world_of ∅ ∅ in
  let configurations : gmap string website.Configuration :=
    {["docs" := {| website.routing_rules := [];
                   website.error_key := None |}]} in
  let intent :=
    {| UpdateS3RoutingRules.bucket := "docs";
       UpdateS3RoutingRules.routing_rules := [("en/latest/", "en/0.3.1/")] |} in
  rules_recorded (current w) configurations
  ∧ error_key (current w) = error_keys configurations
  ∧ routing_rules (current (_perform_update_s3_routing_rules intent w).2)
      !! "docs"
    = Some [("en/latest/", "en/0.3.1/")].
Proof.
  cbv zeta.
  assert (Hrules :
            rules_recorded (current (world_of ∅ ∅))
              {["docs" := {| website.routing_rules := [];
                             website.error_key := None |}]})
    by (intros b rules Hb; vm_compute in Hb; discriminate).
  assert (Hkeys :
            error_key (current (world_of ∅ ∅))
            = error_keys {["docs" := {| website.routing_rules := [];
                                        website.error_key := None |}]})
    by (vm_compute; reflexivity).
  split; [exact Hrules |]. split; [exact Hkeys |].
  apply (X16_routing_rules_agree _ _
           {| UpdateS3RoutingRules.bucket := "docs";
              UpdateS3RoutingRules.routing_rules :=
                [("en/latest/", "en/0.3.1/")] |} Hrules Hkeys).
Defined.

(** ** The keys that a recursive download asks for *)




